(** * pyvision.beta.vtm: the video task manager

    A shallow embedding of [src/pyvision/beta/vtm.py] and the properties of
    its scheduler: the evaluation loop, the sliding window, the frame queue.

    Conventions of the embedding.
    - Python integers are [Z]; the type tag of a data item is a [string];
      the payload of a data item (a frame, a product of a task) is an
      opaque type [payload].
    - A [_VideoDataItem] is a Python object that is shared between the data
      cache and the frame list.  Its fields [_data_type], [_frame_id] and
      [_data] are assigned once in [__init__]; only [_touched] is ever
      reassigned.  A reference to the object is the record of its identity
      [oid] and of the three fixed fields; the counter [_touched] lives in
      the store [touched_store] of the manager, indexed by [oid], so that
      every alias of an object reads and writes the same counter.
    - What [print] writes at debug level 2 (the warnings) is recorded, in
      order, in the field [stdout]; the calls made to the two sinks
      ([frame.show(delay=30)] and [ilog(frame,format='jpg')]) are recorded,
      in order, in the field [sink_calls].  The [INFO] lines carry wall-clock
      times and are left out, as is the clock itself.  An [ilog] is named by
      a number.
    - The callables supplied by the user (factories, [required], [execute])
      are total functions; the exceptions modelled are the two that
      [_evaluateTask] raises itself. *)

From stdpp Require Import gmap strings list fin_maps.
From Stdlib Require Import ZArith Lia.

Open Scope Z_scope.

(** ** Tuples exchanged with the tasks *)

(** A request key, an entry of [required()]: the tuple [(type, frame_id)],
    or [(type, frame_id, default)]. *)
Inductive RequestKey (payload : Type) : Type :=
| Key2 (data_type : string) (fid : Z)
| Key3 (data_type : string) (fid : Z) (default : payload).
Arguments Key2 {payload} data_type fid.
Arguments Key3 {payload} data_type fid default.

(** What [execute] puts in its result: a sequence whose elements are read
    only when there are three of them.  [TupleN extra] is a sequence of
    [4 + extra] elements. *)
Inductive DataTuple (payload : Type) : Type :=
| Tuple0
| Tuple1
| Tuple2
| Tuple3 (data_type : string) (fid : Z) (data : payload)
| TupleN (extra : nat).
Arguments Tuple0 {payload}.
Arguments Tuple1 {payload}.
Arguments Tuple2 {payload}.
Arguments Tuple3 {payload} data_type fid data.
Arguments TupleN {payload} extra.

(** The value returned by [execute]: a list, or a value on which [len]
    raises. *)
Inductive ExecResult (payload : Type) : Type :=
| NoLen
| Items (result : list (DataTuple payload)).
Arguments NoLen {payload}.
Arguments Items {payload} result.

Section tuples.
Context {payload : Type}.

(** [len(key)] *)
Definition key_len (key : RequestKey payload) : nat :=
  match key with
  | Key2 _ _ => 2
  | Key3 _ _ _ => 3
  end.

(** [key[:2]] *)
Definition key_slice2 (key : RequestKey payload) : string * Z :=
  match key with
  | Key2 ty fid => (ty, fid)
  | Key3 ty fid _ => (ty, fid)
  end.

(** [len(data_item)] *)
Definition tuple_len (data_item : DataTuple payload) : nat :=
  match data_item with
  | Tuple0 => 0
  | Tuple1 => 1
  | Tuple2 => 2
  | Tuple3 _ _ _ => 3
  | TupleN extra => 4 + extra
  end.
End tuples.

(** ** class VideoTask *)
Module VideoTask.
Record t (payload : Type) : Type := mk {
  frame_id : Z;
  args : list (RequestKey payload);
  execute : list payload → ExecResult payload
}.
Arguments mk {payload} frame_id args execute.
Arguments frame_id {payload} _.
Arguments args {payload} _.
Arguments execute {payload} _ _.

Definition getFrameId {payload} (self : t payload) : Z := frame_id self.
Definition required {payload} (self : t payload) : list (RequestKey payload) :=
  args self.
End VideoTask.

(** ** class _VideoDataItem *)
Module _VideoDataItem.
Record t (payload : Type) : Type := mk {
  oid : nat;
  _data_type : string;
  _frame_id : Z;
  _data : payload
}.
Arguments mk {payload} oid _data_type _frame_id _data.
Arguments oid {payload} _.
Arguments _data_type {payload} _.
Arguments _frame_id {payload} _.
Arguments _data {payload} _.

Section methods.
Context {payload : Type}.
Implicit Types (self : t payload) (store : list nat).

Definition getType self : string := _data_type self.
Definition getFrameId self : Z := _frame_id self.
Definition getData self : payload := _data self.
Definition getKey self : string * Z := (_data_type self, _frame_id self).

(** [self._touched += 1] *)
Definition touch self store : list nat := alter S (oid self) store.
Definition getTouched self store : nat := default 0%nat (store !! oid self).
End methods.
End _VideoDataItem.

(** An element of the local list [data_items] of one evaluation: an object
    of the cache, or the object built from a key that carries a default.  The
    latter is referenced from [data_items] alone and is dropped with it. *)
Inductive DataItemRef (payload : Type) : Type :=
| Cached (item : _VideoDataItem.t payload)
| Synthetic (key_type : string) (key_fid : Z) (default : payload).
Arguments Cached {payload} item.
Arguments Synthetic {payload} key_type key_fid default.

(** ** Output and exceptions *)
Inductive warning : Type :=
| TaskNotExecuted (task_fid : Z)
| DataNeverUsed (data_type : string) (fid : Z).

Inductive sink_call (payload : Type) : Type :=
| Show (frame : payload)
| Log (ilog : nat) (frame : payload).
Arguments Show {payload} frame.
Arguments Log {payload} ilog frame.

Inductive exn : Type :=
| NotAValidList
| NotThreeElements.

Inductive outcome (A : Type) : Type :=
| Return (a : A)
| Raise (e : exn).
Arguments Return {A} a.
Arguments Raise {A} e.

(** ** class VideoTaskManager *)
Record VideoTaskManager (payload : Type) : Type := mkVTM {
  debug_level : Z;
  frame_id : Z;
  task_list : list (VideoTask.t payload);
  task_factories : list (Z → VideoTask.t payload);
  data_cache : gmap (string * Z) (_VideoDataItem.t payload);
  buffer_size : Z;
  frame_list : list (_VideoDataItem.t payload);
  show : bool;
  touched_store : list nat;
  stdout : list warning;
  sink_calls : list (sink_call payload)
}.
Arguments mkVTM {payload}.
Arguments debug_level {payload} _.
Arguments frame_id {payload} _.
Arguments task_list {payload} _.
Arguments task_factories {payload} _.
Arguments data_cache {payload} _.
Arguments buffer_size {payload} _.
Arguments frame_list {payload} _.
Arguments show {payload} _.
Arguments touched_store {payload} _.
Arguments stdout {payload} _.
Arguments sink_calls {payload} _.

Section manager.
Context {payload : Type}.

Abbreviation task := (VideoTask.t payload).
Abbreviation item := (_VideoDataItem.t payload).
Abbreviation vtm := (VideoTaskManager payload).
Implicit Types (self : vtm).

(** [VideoTaskManager(debug_level, buffer_size, show)] *)
Definition init (debug_level buffer_size : Z) (show : bool) : vtm :=
  mkVTM debug_level 0 [] [] ∅ buffer_size [] show [] [] [].

(** *** Assignments to the fields *)
Definition set_frame_id (v : Z) self : vtm :=
  mkVTM (debug_level self) v (task_list self) (task_factories self)
    (data_cache self) (buffer_size self) (frame_list self) (show self)
    (touched_store self) (stdout self) (sink_calls self).
Definition set_task_list (v : list task) self : vtm :=
  mkVTM (debug_level self) (frame_id self) v (task_factories self)
    (data_cache self) (buffer_size self) (frame_list self) (show self)
    (touched_store self) (stdout self) (sink_calls self).
Definition set_task_factories (v : list (Z → task)) self : vtm :=
  mkVTM (debug_level self) (frame_id self) (task_list self) v
    (data_cache self) (buffer_size self) (frame_list self) (show self)
    (touched_store self) (stdout self) (sink_calls self).
Definition set_data_cache (v : gmap (string * Z) item) self : vtm :=
  mkVTM (debug_level self) (frame_id self) (task_list self)
    (task_factories self) v (buffer_size self) (frame_list self) (show self)
    (touched_store self) (stdout self) (sink_calls self).
Definition set_frame_list (v : list item) self : vtm :=
  mkVTM (debug_level self) (frame_id self) (task_list self)
    (task_factories self) (data_cache self) (buffer_size self) v (show self)
    (touched_store self) (stdout self) (sink_calls self).
Definition set_touched_store (v : list nat) self : vtm :=
  mkVTM (debug_level self) (frame_id self) (task_list self)
    (task_factories self) (data_cache self) (buffer_size self)
    (frame_list self) (show self) v (stdout self) (sink_calls self).
Definition set_stdout (v : list warning) self : vtm :=
  mkVTM (debug_level self) (frame_id self) (task_list self)
    (task_factories self) (data_cache self) (buffer_size self)
    (frame_list self) (show self) (touched_store self) v (sink_calls self).
Definition set_sink_calls (v : list (sink_call payload)) self : vtm :=
  mkVTM (debug_level self) (frame_id self) (task_list self)
    (task_factories self) (data_cache self) (buffer_size self)
    (frame_list self) (show self) (touched_store self) (stdout self) v.

(** *** The monad of the methods: the manager is threaded through, and a
    method returns or raises. *)
Definition M (A : Type) : Type := vtm → vtm * outcome A.

Definition ret {A} (a : A) : M A := λ self, (self, Return a).
Definition raise {A} (e : exn) : M A := λ self, (self, Raise e).
Definition bind {A B} (k : A → M B) (m : M A) : M B :=
  λ self,
    match m self with
    | (self', Return a) => k a self'
    | (self', Raise e) => (self', Raise e)
    end.
Definition get : M vtm := λ self, (self, Return self).
Definition modify (f : vtm → vtm) : M unit := λ self, (f self, Return tt).

#[local] Instance M_ret : MRet M := @ret.
#[local] Instance M_bind : MBind M := @bind.

(** [print] of a warning, guarded by [self.debug_level >= 2]. *)
Definition warn (e : warning) : M unit :=
  modify (λ self,
    if bool_decide (debug_level self >= 2)
    then set_stdout (stdout self ++ [e]) self
    else self).

(** [_VideoDataItem(data_tuple)]: a new object, its counter at 0. *)
Definition new_item (ty : string) (fid : Z) (data : payload) : M item :=
  λ self,
    (set_touched_store (touched_store self ++ [0%nat]) self,
     Return (_VideoDataItem.mk (length (touched_store self)) ty fid data)).

(** [self.data_cache[key] = data_item] *)
Definition cache_put (key : string * Z) (data_item : item) : M unit :=
  modify (λ self, set_data_cache (<[key := data_item]> (data_cache self)) self).

(** [addTaskFactory] *)
Definition addTaskFactory (task_factory : Z → task) self : vtm :=
  set_task_factories (task_factories self ++ [task_factory]) self.

(** [_createTasksForFrame]: [self.task_list += [factory(frame_id)]] for
    each factory, in order. *)
Definition _createTasksForFrame (fid : Z) : M unit :=
  modify (λ self,
    foldl (λ s factory, set_task_list (task_list s ++ [factory fid]) s)
      self (task_factories self)).

(** The loop over [data_request] in [_evaluateTask].  [None] is the
    [return True] of the branch "Data is not yet available"; the test
    [len(key) > 2] is the case [Key3]. *)
Fixpoint resolve (cache : gmap (string * Z) item)
    (data_request : list (RequestKey payload))
    : option (list (DataItemRef payload)) :=
  match data_request with
  | [] => Some []
  | key :: rest =>
      match cache !! key_slice2 key with
      | Some it => cons (Cached it) <$> resolve cache rest
      | None =>
          match key with
          | Key3 ty fid d => cons (Synthetic ty fid d) <$> resolve cache rest
          | Key2 _ _ => None
          end
      end
  end.

(** [each.getData()] *)
Definition ref_getData (each : DataItemRef payload) : payload :=
  match each with
  | Cached it => _VideoDataItem.getData it
  | Synthetic _ _ d => d
  end.

(** [each.touch()] *)
Definition ref_touch (store : list nat) (each : DataItemRef payload)
    : list nat :=
  match each with
  | Cached it => _VideoDataItem.touch it store
  | Synthetic _ _ _ => store
  end.

(** [for each in data_items: each.touch()] *)
Definition touch_all (data_items : list (DataItemRef payload)) : M unit :=
  modify (λ self,
    set_touched_store (foldl ref_touch (touched_store self) data_items) self).

(** The loop over [result] in [_evaluateTask]; the test
    [len(data_item) != 3] is the case of every constructor but [Tuple3]
    ([tuple_len_3] below). *)
Fixpoint store_result (result : list (DataTuple payload)) : M unit :=
  match result with
  | [] => ret tt
  | data_item :: rest =>
      match data_item with
      | Tuple3 ty fid data =>
          it ← new_item ty fid data;
          cache_put (ty, fid) it;;
          store_result rest
      | _ => raise NotThreeElements
      end
  end.

(** [_evaluateTask]: [false] if the task is to be deleted.  The cache is
    read only at a key that [has_key] has found and [required] is total, so
    the branch [except KeyError] is never entered. *)
Definition _evaluateTask (t : task) : M bool :=
  self ← get;
  if bool_decide (frame_id self - VideoTask.getFrameId t > buffer_size self)
  then
    warn (TaskNotExecuted (VideoTask.getFrameId t));;
    ret false
  else
    match resolve (data_cache self) (VideoTask.required t) with
    | None => ret true
    | Some data_items =>
        let args := ref_getData <$> data_items in
        touch_all data_items;;
        match VideoTask.execute t args with
        | NoLen => raise NotAValidList
        | Items result =>
            store_result result;;
            ret false
        end
    end.

(** [filter(function, list)], the function being a method. *)
Fixpoint py_filter {A} (function : A → M bool) (l : list A) : M (list A) :=
  match l with
  | [] => mret []
  | x :: rest =>
      b ← function x;
      kept ← py_filter function rest;
      mret (if b : bool then x :: kept else kept)
  end.

(** [for x in l: body(x)] *)
Fixpoint for_each {A} (l : list A) (body : A → M unit) : M unit :=
  match l with
  | [] => mret tt
  | x :: rest => body x;; for_each rest body
  end.

(** The [while True] loop of [_runTasks], run for at most [fuel] scans of
    the task list; [None] when the scans are used up. *)
Fixpoint _runTasks_loop (fuel : nat) self : option (vtm * outcome unit) :=
  match fuel with
  | O => None
  | S fuel' =>
      let start_count := length (task_list self) in
      match py_filter _evaluateTask (task_list self) self with
      | (self1, Raise e) => Some (self1, Raise e)
      | (self1, Return kept) =>
          let self2 := set_task_list kept self1 in
          if bool_decide (start_count = length (task_list self2))
          then Some (self2, Return tt)
          else _runTasks_loop fuel' self2
      end
  end.

(** [_runTasks].  One scan more than there are tasks is enough
    ([_runTasks_loop_enough] below), so the last branch is never taken. *)
Definition _runTasks : M unit :=
  λ self,
    match _runTasks_loop (S (length (task_list self))) self with
    | Some r => r
    | None => (self, Return tt)
    end.

(** [_remainingTasksForFrame] *)
Definition _remainingTasksForFrame (fid : Z) self : nat :=
  foldl (λ count t,
           if bool_decide (VideoTask.getFrameId t = fid) then S count else count)
    0%nat (task_list self).

(** The body of the loop of [_cleanUp], for one key of the cache and the
    item found at it. *)
Definition _cleanUp_body (entry : string * Z * item) : M unit :=
  let '(key, data_item) := entry in
  self ← get;
  if bool_decide (_VideoDataItem.getFrameId data_item
                  < frame_id self - buffer_size self)
  then
    (if bool_decide
          (_VideoDataItem.getTouched data_item (touched_store self) = 0%nat)
     then warn (DataNeverUsed (_VideoDataItem.getType data_item)
                  (_VideoDataItem.getFrameId data_item))
     else mret tt);;
    modify (λ self, set_data_cache (delete key (data_cache self)) self)
  else mret tt.

(** [_cleanUp]: the keys are listed once, before the loop.  The order of
    [dict.keys()] is not specified; [map_to_list] stands for it, and it
    decides nothing but the order of the warnings of one call.  The keys
    being distinct and a turn of the loop deleting its own key only,
    [self.data_cache[key]] is the item listed with the key. *)
Definition _cleanUp : M unit :=
  self ← get;
  for_each (map_to_list (data_cache self)) _cleanUp_body.

(** A call to a sink. *)
Definition call_sink (c : sink_call payload) : M unit :=
  modify (λ self, set_sink_calls (sink_calls self ++ [c]) self).

(** The [while] loop of [showFrames]; [frames] is [self.frame_list]. *)
Fixpoint showFrames_loop (frames : list item) (ilog : option nat) : M unit :=
  match frames with
  | [] => mret tt
  | frame_data :: rest =>
      self ← get;
      let fid := _VideoDataItem.getFrameId frame_data in
      let frame := _VideoDataItem.getData frame_data in
      let task_count := _remainingTasksForFrame fid self in
      if bool_decide (task_count = 0%nat)
      then
        (if show self then call_sink (Show frame) else mret tt);;
        match ilog with
        | Some log => call_sink (Log log frame)
        | None => mret tt
        end;;
        modify (set_frame_list rest);;
        showFrames_loop rest ilog
      else mret tt
  end.

(** [showFrames] *)
Definition showFrames (ilog : option nat) : M unit :=
  self ← get;
  showFrames_loop (frame_list self) ilog.

(** [addFrame] *)
Definition addFrame (frame : payload) (ilog : option nat) : M unit :=
  self ← get;
  frame_data ← new_item "FRAME" (frame_id self) frame;
  cache_put (_VideoDataItem.getKey frame_data) frame_data;;
  _createTasksForFrame (frame_id self);;
  modify (λ self, set_frame_list (frame_list self ++ [frame_data]) self);;
  _runTasks;;
  _cleanUp;;
  modify (λ self, set_frame_id (frame_id self + 1) self);;
  showFrames ilog.

(** ** Notions used in the statements below *)

(** The fields that no evaluation of a task and no eviction assigns. *)
Definition eval_frame self self' : Prop :=
  debug_level self' = debug_level self ∧
  frame_id self' = frame_id self ∧
  task_list self' = task_list self ∧
  task_factories self' = task_factories self ∧
  buffer_size self' = buffer_size self ∧
  frame_list self' = frame_list self ∧
  show self' = show self ∧
  sink_calls self' = sink_calls self.

(** The same, the task list apart. *)
Definition run_frame self self' : Prop :=
  debug_level self' = debug_level self ∧
  frame_id self' = frame_id self ∧
  task_factories self' = task_factories self ∧
  buffer_size self' = buffer_size self ∧
  frame_list self' = frame_list self ∧
  show self' = show self ∧
  sink_calls self' = sink_calls self.

(** The staleness test of [_evaluateTask]. *)
Definition stale (t : task) self : Prop :=
  frame_id self - VideoTask.getFrameId t > buffer_size self.

#[global] Instance stale_dec t self : Decision (stale t self).
Proof. unfold stale. apply _. Defined.

(** What [_evaluateTask] does once the inputs [data_items] are resolved. *)
Definition fire (t : task) (data_items : list (DataItemRef payload)) : M bool :=
  touch_all data_items;;
  match VideoTask.execute t (ref_getData <$> data_items) with
  | NoLen => raise NotAValidList
  | Items result => store_result result;; mret false
  end.

(** The test of [_cleanUp]. *)
Definition old (data_item : item) self : Prop :=
  _VideoDataItem.getFrameId data_item < frame_id self - buffer_size self.

#[global] Instance old_dec data_item self : Decision (old data_item self).
Proof. unfold old. apply _. Defined.

(** The calls that one turn of the loop of [showFrames] makes to the sinks
    for the frame it deletes from the list. *)
Definition sinks_for (show : bool) (ilog : option nat) (frame_data : item)
    : list (sink_call payload) :=
  (if show then [Show (_VideoDataItem.getData frame_data)] else [])
  ++ match ilog with
     | Some log => [Log log (_VideoDataItem.getData frame_data)]
     | None => []
     end.

(** The manager at the call of [_runTasks] in [addFrame]: the frame is in
    the cache and at the end of the frame list, the tasks of the factories
    are at the end of the task list. *)
Definition before_runTasks (frame : payload) self : vtm :=
  let frame_data :=
    _VideoDataItem.mk (length (touched_store self)) "FRAME" (frame_id self)
      frame in
  mkVTM (debug_level self) (frame_id self)
    (task_list self
     ++ ((λ factory : Z → task, factory (frame_id self))
           <$> task_factories self))
    (task_factories self)
    (<[("FRAME", frame_id self) := frame_data]> (data_cache self))
    (buffer_size self) (frame_list self ++ [frame_data]) (show self)
    (touched_store self ++ [0%nat]) (stdout self) (sink_calls self).

(** [evaluated_in_runTasks self t s]: when [_runTasks] is called on [self],
    the task [t] is evaluated with the manager as [s], in the first scan or
    in a later one. *)
Inductive evaluated_in_runTasks : vtm → task → vtm → Prop :=
| evaluated_in_scan self l1 t l2 s k1 :
    task_list self = l1 ++ t :: l2 →
    py_filter _evaluateTask l1 self = (s, Return k1) →
    evaluated_in_runTasks self t s
| evaluated_in_next_scan self s1 kept t s :
    py_filter _evaluateTask (task_list self) self = (s1, Return kept) →
    length kept ≠ length (task_list self) →
    evaluated_in_runTasks (set_task_list kept s1) t s →
    evaluated_in_runTasks self t s.

(** A call of the public interface; a caller may go on after an exception. *)
Inductive call : Type :=
| AddTaskFactory (task_factory : Z → task)
| AddFrame (frame : payload) (ilog : option nat).

Definition do_call (c : call) self : vtm :=
  match c with
  | AddTaskFactory task_factory => addTaskFactory task_factory self
  | AddFrame frame ilog => (addFrame frame ilog self).1
  end.

Definition run (calls : list call) self : vtm :=
  foldl (λ s c, do_call c s) self calls.

(** The frames given to [addFrame], in order. *)
Definition ingested (calls : list call) : list payload :=
  omap (λ c, match c with AddFrame frame _ => Some frame | _ => None end) calls.

(** The frames that were displayed, and those that were given to a log. *)
Definition shown (l : list (sink_call payload)) : list payload :=
  omap (λ c, match c with Show frame => Some frame | _ => None end) l.
Definition logged (l : list (sink_call payload)) : list payload :=
  omap (λ c, match c with Log _ frame => Some frame | _ => None end) l.

(** ** Notions used in the further properties *)

(** The items of the cache are stored under their own key and are objects
    of the store. *)
Definition cache_wf self : Prop :=
  ∀ key data_item,
    data_cache self !! key = Some data_item →
    _VideoDataItem.getKey data_item = key ∧
    (_VideoDataItem.oid data_item < length (touched_store self))%nat.

(** The items of the frame list are frames and objects of the store. *)
Definition frame_list_wf self : Prop :=
  Forall (λ frame_data,
            _VideoDataItem.getType frame_data = "FRAME" ∧
            (_VideoDataItem.oid frame_data < length (touched_store self))%nat)
    (frame_list self).

(** [each is the object oid] *)
Definition refers_to (oid : nat) (each : DataItemRef payload) : bool :=
  match each with
  | Cached it => bool_decide (_VideoDataItem.oid it = oid)
  | Synthetic _ _ _ => false
  end.

(** The number of elements of [data_items] that are the object [oid]. *)
Definition times_in (oid : nat) (data_items : list (DataItemRef payload)) : nat :=
  length (filter (λ each, refers_to oid each = true) data_items).

(** The warnings of one call of [_cleanUp], one for each item that is
    deleted with its counter at 0; they are listed in the order of
    [map_to_list], and used up to a permutation. *)
Definition never_used self : list warning :=
  omap (λ entry : string * Z * item,
          if decide (old entry.2 self ∧
                     _VideoDataItem.getTouched entry.2 (touched_store self)
                     = 0%nat)
          then Some (DataNeverUsed (_VideoDataItem.getType entry.2)
                       (_VideoDataItem.getFrameId entry.2))
          else None)
    (map_to_list (data_cache self)).

End manager.

Arguments call : clear implicits.

(** * Runs of the manager on strings *)

(** A task that waits for a product ["X"] that no task makes. *)
Definition waits_for_X (f : Z) : VideoTask.t string :=
  VideoTask.mk f [Key2 "X" f] (λ _, Items []).

(** [buffer_size=1], warnings printed, frames displayed. *)
Definition demo0 : VideoTaskManager string :=
  addTaskFactory waits_for_X (init 2 1 true).
Definition demo1 : VideoTaskManager string := (addFrame "A" None demo0).1.
Definition demo2 : VideoTaskManager string := (addFrame "B" None demo1).1.
Definition demo3 : VideoTaskManager string :=
  (addFrame "C" (Some 7%nat) demo2).1.

(** A task that reads its frame and an optional ["AUX"]. *)
Definition with_default (f : Z) : VideoTask.t string :=
  VideoTask.mk f [Key2 "FRAME" f; Key3 "AUX" f "none"]
    (λ args, Items [Tuple3 "OUT" f (String.concat "," args)]).

(** A task whose second item has two elements. *)
Definition bad_item (f : Z) : VideoTask.t string :=
  VideoTask.mk f [Key2 "FRAME" f]
    (λ _, Items [Tuple3 "P" f "p"; Tuple2; Tuple3 "R" f "r"]).


Definition bad0 : VideoTaskManager string :=
  addTaskFactory bad_item (init 0 3 true).
Definition opt0 : VideoTaskManager string :=
  before_runTasks "A" (addTaskFactory with_default (init 0 3 false)).

(** [buffer_size=-1]: every task of a frame is out of the window at once. *)
Definition neg0 : VideoTaskManager string :=
  before_runTasks "A" (addTaskFactory waits_for_X (init 2 (-1) false)).

(** The calls that lead to [demo1]. *)
Definition demo_calls : list (call string) :=
  [AddTaskFactory waits_for_X; AddFrame "A" None].

(** A task that asks for nothing and makes an ["N"]. *)
Definition no_input (f : Z) : VideoTask.t string :=
  VideoTask.mk f [] (λ _, Items [Tuple3 "N" f "n"]).

Definition ne0 : VideoTaskManager string :=
  addTaskFactory no_input (init 2 3 true).

(** * Properties *)

Section properties.
Context {payload : Type}.

Abbreviation task := (VideoTask.t payload).
Abbreviation item := (_VideoDataItem.t payload).
Abbreviation vtm := (VideoTaskManager payload).
Implicit Types (self s : vtm) (t : task).
Implicit Types (frame : payload) (frame_data : item).
Implicit Types (cache : gmap (string * Z) item).

#[local] Existing Instance M_ret.
#[local] Existing Instance M_bind.

(** ** What a method leaves alone *)

Ltac unfold_M :=
  unfold mbind, mret, M_bind, M_ret, bind, ret, raise, get, modify in *.

Ltac frame_tac :=
  unfold eval_frame, run_frame in *; simpl in *; intuition congruence.

Lemma eval_frame_refl self : eval_frame self self.
Proof. frame_tac. Qed.

Lemma eval_frame_trans s1 s2 s3 :
  eval_frame s1 s2 → eval_frame s2 s3 → eval_frame s1 s3.
Proof. frame_tac. Qed.

Lemma run_frame_refl self : run_frame self self.
Proof. frame_tac. Qed.

Lemma run_frame_trans s1 s2 s3 :
  run_frame s1 s2 → run_frame s2 s3 → run_frame s1 s3.
Proof. frame_tac. Qed.

Lemma eval_run_frame s1 s2 : eval_frame s1 s2 → run_frame s1 s2.
Proof. frame_tac. Qed.

Lemma bind_eval_frame {A B} (m : M A) (k : A → M B) self :
  (∀ s, eval_frame s (m s).1) →
  (∀ a s, eval_frame s (k a s).1) →
  eval_frame self ((m ≫= k) self).1.
Proof.
  intros Hm Hk. unfold_M. specialize (Hm self).
  destruct (m self) as [s' [a|e]]; simpl in *; [|done].
  eapply eval_frame_trans; [exact Hm|apply Hk].
Qed.

Lemma warn_eval_frame w self : eval_frame self (warn w self).1.
Proof. unfold warn. unfold_M. simpl. case_bool_decide; frame_tac. Qed.

Lemma store_result_eval_frame result self :
  eval_frame self (store_result result self).1.
Proof.
  revert self. induction result as [|data_item rest IH]; intros self.
  - apply eval_frame_refl.
  - destruct data_item; try apply eval_frame_refl.
    simpl. unfold new_item, cache_put. unfold_M. simpl.
    eapply eval_frame_trans; [|apply IH]. frame_tac.
Qed.

Lemma _evaluateTask_eval_frame t self :
  eval_frame self (_evaluateTask t self).1.
Proof.
  unfold _evaluateTask. unfold_M. simpl. case_bool_decide.
  - unfold warn. unfold_M. simpl. case_bool_decide; frame_tac.
  - destruct (resolve _ _) as [data_items|]; [|apply eval_frame_refl].
    unfold touch_all. unfold_M. simpl.
    destruct (VideoTask.execute _ _) as [|result]; [frame_tac|].
    match goal with
    | |- context [store_result result ?s] =>
        pose proof (store_result_eval_frame result s) as H1;
        destruct (store_result result s) as [s' [[]|e]]
    end; frame_tac.
Qed.

Lemma py_filter_eval_frame {A} (f : A → M bool) l self :
  (∀ x s, eval_frame s (f x s).1) →
  eval_frame self (py_filter f l self).1.
Proof.
  intros Hf. revert self. induction l as [|x rest IH]; intros self.
  - apply eval_frame_refl.
  - simpl. apply bind_eval_frame; [apply Hf|].
    intros b s. apply bind_eval_frame; [apply IH|].
    intros kept s'. apply eval_frame_refl.
Qed.

(** ** One evaluation of a task *)

Lemma tuple_len_3 (data_item : DataTuple payload) :
  tuple_len data_item = 3%nat ↔ ∃ ty fid data, data_item = Tuple3 ty fid data.
Proof.
  split.
  - destruct data_item; simpl; intros H; try discriminate; try lia; eauto.
  - intros (ty & fid & data & ->). reflexivity.
Qed.

Lemma _evaluateTask_stale t self :
  stale t self →
  _evaluateTask t self
  = ((warn (TaskNotExecuted (VideoTask.getFrameId t)) self).1, Return false).
Proof.
  intros Hs. unfold _evaluateTask, stale in *. unfold_M.
  rewrite bool_decide_eq_true_2 by done. reflexivity.
Qed.

Lemma _evaluateTask_missing t self :
  ¬ stale t self →
  resolve (data_cache self) (VideoTask.required t) = None →
  _evaluateTask t self = (self, Return true).
Proof.
  intros Hs Hr. unfold _evaluateTask, stale in *. unfold_M.
  rewrite bool_decide_eq_false_2 by done. rewrite Hr. reflexivity.
Qed.

Lemma _evaluateTask_fire t self data_items :
  ¬ stale t self →
  resolve (data_cache self) (VideoTask.required t) = Some data_items →
  _evaluateTask t self = fire t data_items self.
Proof.
  intros Hs Hr. unfold _evaluateTask, fire, stale in *. unfold_M.
  rewrite bool_decide_eq_false_2 by done. rewrite Hr. reflexivity.
Qed.

Lemma store_result_outcome result self :
  (store_result result self).2 = Return tt ∨
  (store_result result self).2 = Raise NotThreeElements.
Proof.
  revert self. induction result as [|data_item rest IH]; intros self.
  - by left.
  - destruct data_item; try (by right).
    simpl. unfold new_item, cache_put. unfold_M. simpl. apply IH.
Qed.

Lemma fire_not_keep t data_items self : (fire t data_items self).2 ≠ Return true.
Proof.
  unfold fire, touch_all. unfold_M. simpl.
  destruct (VideoTask.execute _ _) as [|result]; [done|].
  destruct (store_result result _) as [s' [[]|e]]; done.
Qed.

Lemma _evaluateTask_keep_inv t self self' :
  _evaluateTask t self = (self', Return true) →
  self' = self ∧ ¬ stale t self ∧
  resolve (data_cache self) (VideoTask.required t) = None.
Proof.
  intros He. destruct (decide (stale t self)) as [Hs|Hs].
  { rewrite _evaluateTask_stale in He by done. congruence. }
  destruct (resolve (data_cache self) (VideoTask.required t))
    as [data_items|] eqn:Hr.
  { rewrite (_evaluateTask_fire _ _ _ Hs Hr) in He.
    pose proof (fire_not_keep t data_items self) as Hk.
    rewrite He in Hk. done. }
  rewrite _evaluateTask_missing in He by done.
  split_and!; congruence.
Qed.

(** [resolve] gives up exactly at the first length-2 key that the cache
    does not hold. *)
Lemma resolve_None cache (data_request : list (RequestKey payload)) :
  resolve cache data_request = None ↔
  ∃ before ty fid after,
    data_request = before ++ Key2 ty fid :: after ∧
    cache !! (ty, fid) = None ∧
    is_Some (resolve cache before).
Proof.
  induction data_request as [|key rest IH]; simpl.
  - split; [done|]. intros (before & ty & fid & after & H & _).
    by destruct before.
  - destruct (cache !! key_slice2 key) as [it|] eqn:Hc.
    + rewrite fmap_None, IH. split.
      * intros (before & ty & fid & after & -> & Hm & Hb).
        exists (key :: before), ty, fid, after. do 2 (split; [done|]).
        simpl. rewrite Hc. destruct Hb as [x ->]. by eexists.
      * intros (before & ty & fid & after & Heq & Hm & Hb).
        destruct before as [|k before]; simplify_eq/=.
        exists before, ty, fid, after. do 2 (split; [done|]).
        rewrite Hc in Hb. destruct (resolve cache before); [by eexists|].
        by destruct Hb.
    + destruct key as [ty fid|ty fid d]; simpl in *.
      * split; [|done]. intros _. exists [], ty, fid, rest.
        do 2 (split; [done|]). by eexists.
      * rewrite fmap_None, IH. split.
        -- intros (before & ty' & fid' & after & -> & Hm & Hb).
           exists (Key3 ty fid d :: before), ty', fid', after.
           do 2 (split; [done|]). simpl. rewrite Hc.
           destruct Hb as [x ->]. by eexists.
        -- intros (before & ty' & fid' & after & Heq & Hm & Hb).
           destruct before as [|k before]; simplify_eq/=.
           exists before, ty', fid', after. do 2 (split; [done|]).
           rewrite Hc in Hb. destruct (resolve cache before); [by eexists|].
           by destruct Hb.
Qed.

Lemma resolve_nil_Some cache : resolve cache [] = Some [].
Proof. reflexivity. Qed.

(** ** One scan of the task list, and the loop of scans *)

Lemma py_filter_length {A} (f : A → M bool) l self self' kept :
  py_filter f l self = (self', Return kept) →
  (length kept ≤ length l)%nat.
Proof.
  revert self self' kept. induction l as [|x rest IH]; intros self self' kept.
  - simpl. unfold_M. intros [= <- <-]. done.
  - simpl. unfold_M. destruct (f x self) as [s1 [b|e]]; [|done].
    destruct (py_filter f rest s1) as [s2 [kept'|e]] eqn:Hr; [|done].
    intros [= <- <-]. apply IH in Hr. destruct b; simpl; lia.
Qed.

(** A scan that reaches a task whose evaluation raises, raises. *)
Lemma py_filter_raise {A} (f : A → M bool) l1 x l2 self s1 k1 s2 e :
  py_filter f l1 self = (s1, Return k1) →
  f x s1 = (s2, Raise e) →
  py_filter f (l1 ++ x :: l2) self = (s2, Raise e).
Proof.
  revert self k1. induction l1 as [|y l1 IH]; intros self k1.
  - simpl. unfold_M. intros [= <- <-] ->. reflexivity.
  - simpl. unfold_M. destruct (f y self) as [s [b|e']]; [|done].
    destruct (py_filter f l1 s) as [s' [kept'|e']] eqn:Hr; [|done].
    intros [= <- <-] Hx. rewrite (IH _ _ Hr Hx). reflexivity.
Qed.

(** The tasks that a scan retains are tasks whose evaluation returned
    [True]: they are within the window, and they wait for a key. *)
Lemma scan_kept l self self' kept :
  py_filter _evaluateTask l self = (self', Return kept) →
  Forall (λ t, ¬ stale t self ∧
               ∃ s, eval_frame self s ∧
                    resolve (data_cache s) (VideoTask.required t) = None)
    kept.
Proof.
  revert self self' kept. induction l as [|x rest IH]; intros self self' kept.
  - simpl. unfold_M. intros [= <- <-]. constructor.
  - simpl. unfold_M.
    pose proof (_evaluateTask_eval_frame x self) as Hfr.
    destruct (_evaluateTask x self) as [s1 [b|e]] eqn:Hx; [|done].
    destruct (py_filter _evaluateTask rest s1) as [s2 [kept'|e]] eqn:Hr;
      [|done].
    intros [= <- <-]. apply IH in Hr. simpl in Hfr.
    assert (Forall (λ t, ¬ stale t self ∧
               ∃ s, eval_frame self s ∧
                    resolve (data_cache s) (VideoTask.required t) = None)
              kept') as Hk.
    { eapply Forall_impl; [exact Hr|]. intros t [Hs (s & Hf & Hn)]. split.
      - unfold stale, eval_frame in *. intuition lia.
      - exists s. split; [|done]. by eapply eval_frame_trans. }
    destruct b; [|done]. constructor; [|done].
    apply _evaluateTask_keep_inv in Hx as (-> & Hs & Hn).
    split; [done|]. exists self. split; [apply eval_frame_refl|done].
Qed.

Lemma _runTasks_loop_enough fuel self :
  (length (task_list self) < fuel)%nat →
  is_Some (_runTasks_loop fuel self).
Proof.
  revert self. induction fuel as [|fuel IH]; intros self Hlt; [lia|].
  simpl.
  destruct (py_filter _evaluateTask (task_list self) self)
    as [s1 [kept|e]] eqn:Hscan; [|by eexists].
  apply py_filter_length in Hscan. simpl.
  case_bool_decide as Hc; [by eexists|]. apply IH. simpl. lia.
Qed.

Lemma _runTasks_loop_fuel n m self :
  (length (task_list self) < n)%nat →
  (length (task_list self) < m)%nat →
  _runTasks_loop n self = _runTasks_loop m self.
Proof.
  revert m self. induction n as [|n IH]; intros m self Hn Hm; [lia|].
  destruct m as [|m]; [lia|]. simpl.
  destruct (py_filter _evaluateTask (task_list self) self)
    as [s1 [kept|e]] eqn:Hscan; [|done].
  apply py_filter_length in Hscan. simpl.
  case_bool_decide as Hc; [done|]. apply IH; simpl; lia.
Qed.

(** The equation of the loop of [_runTasks]. *)
Lemma _runTasks_unfold self :
  _runTasks self =
  match py_filter _evaluateTask (task_list self) self with
  | (self1, Raise e) => (self1, Raise e)
  | (self1, Return kept) =>
      if bool_decide (length (task_list self) = length kept)
      then (set_task_list kept self1, Return tt)
      else _runTasks (set_task_list kept self1)
  end.
Proof.
  unfold _runTasks at 1. simpl.
  destruct (py_filter _evaluateTask (task_list self) self)
    as [s1 [kept|e]] eqn:Hscan; [|done].
  apply py_filter_length in Hscan. simpl.
  case_bool_decide as Hc; [done|].
  destruct (_runTasks_loop_enough (length (task_list self))
              (set_task_list kept s1)) as [r Hr]; [simpl; lia|].
  rewrite Hr. unfold _runTasks.
  rewrite <- (_runTasks_loop_fuel (length (task_list self))
                (S (length (task_list (set_task_list kept s1)))))
    by (simpl; lia).
  by rewrite Hr.
Qed.

(** Induction over the scans of [_runTasks]. *)
Lemma _runTasks_ind (P : vtm → vtm * outcome unit → Prop) :
  (∀ self s1 e,
     py_filter _evaluateTask (task_list self) self = (s1, Raise e) →
     P self (s1, Raise e)) →
  (∀ self s1 kept,
     py_filter _evaluateTask (task_list self) self = (s1, Return kept) →
     length (task_list self) = length kept →
     P self (set_task_list kept s1, Return tt)) →
  (∀ self s1 kept,
     py_filter _evaluateTask (task_list self) self = (s1, Return kept) →
     (length kept < length (task_list self))%nat →
     P (set_task_list kept s1) (_runTasks (set_task_list kept s1)) →
     P self (_runTasks (set_task_list kept s1))) →
  ∀ self, P self (_runTasks self).
Proof.
  intros Hraise Hstop Hstep self.
  remember (length (task_list self)) as n eqn:Hn.
  revert self Hn. induction (lt_wf n) as [n _ IH]. intros self ->.
  rewrite _runTasks_unfold.
  destruct (py_filter _evaluateTask (task_list self) self)
    as [s1 [kept|e]] eqn:Hscan; [|by apply Hraise].
  pose proof (py_filter_length _ _ _ _ _ Hscan) as Hle.
  case_bool_decide as Hc; [by apply Hstop|].
  apply Hstep; [done|lia|]. eapply IH; [|reflexivity]. simpl. lia.
Qed.

Lemma resolve_None_nonempty cache (data_request : list (RequestKey payload)) :
  resolve cache data_request = None → data_request ≠ [].
Proof. by intros H ->. Qed.

(** What holds of [_runTasks]: it assigns no field of [run_frame], and when
    it returns, the tasks left are within the window and wait for a key. *)
Lemma _runTasks_spec self :
  run_frame self (_runTasks self).1 ∧
  ((_runTasks self).2 = Return tt →
   Forall (λ t, ¬ stale t (_runTasks self).1 ∧ VideoTask.required t ≠ [])
     (task_list (_runTasks self).1)).
Proof.
  pattern self, (_runTasks self). apply _runTasks_ind; clear self.
  - intros self s1 e Hscan. simpl. split; [|done].
    pose proof (py_filter_eval_frame _evaluateTask (task_list self) self
                  _evaluateTask_eval_frame) as Hf.
    rewrite Hscan in Hf. frame_tac.
  - intros self s1 kept Hscan Hlen. simpl.
    pose proof (py_filter_eval_frame _evaluateTask (task_list self) self
                  _evaluateTask_eval_frame) as Hf.
    rewrite Hscan in Hf. simpl in Hf. split; [frame_tac|]. intros _.
    apply scan_kept in Hscan. eapply Forall_impl; [exact Hscan|].
    intros t [Hs (s & Hfs & Hn)]. split.
    + unfold stale, eval_frame in *. simpl. intuition lia.
    + by eapply resolve_None_nonempty.
  - intros self s1 kept Hscan Hlen [IH1 IH2].
    pose proof (py_filter_eval_frame _evaluateTask (task_list self) self
                  _evaluateTask_eval_frame) as Hf.
    rewrite Hscan in Hf. simpl in Hf. split; [|done].
    eapply run_frame_trans; [|exact IH1]. frame_tac.
Qed.

(** ** Eviction *)

Lemma _cleanUp_body_spec key data_item self :
  (_cleanUp_body (key, data_item) self).2 = Return tt ∧
  eval_frame self (_cleanUp_body (key, data_item) self).1 ∧
  data_cache (_cleanUp_body (key, data_item) self).1
  = if decide (old data_item self)
    then delete key (data_cache self) else data_cache self.
Proof.
  unfold _cleanUp_body, old, warn. unfold_M.
  destruct (decide _) as [Ho|Ho].
  - rewrite bool_decide_eq_true_2 by done.
    repeat case_bool_decide; simpl; split_and!; try done; frame_tac.
  - rewrite bool_decide_eq_false_2 by done. simpl.
    split_and!; [done|apply eval_frame_refl|done].
Qed.

Lemma _cleanUp_loop_spec (l : list (string * Z * item)) self :
  (for_each l _cleanUp_body self).2 = Return tt ∧
  eval_frame self (for_each l _cleanUp_body self).1 ∧
  ∀ k it,
    data_cache (for_each l _cleanUp_body self).1 !! k = Some it →
    data_cache self !! k = Some it ∧ ((k, it) ∈ l → ¬ old it self).
Proof.
  revert self. induction l as [|[key data_item] rest IH]; intros self.
  - simpl. unfold_M. simpl. split_and!; [done|apply eval_frame_refl|].
    intros k it Hl. split; [done|]. by intros ?%elem_of_nil.
  - cbn [for_each]. unfold mbind, M_bind, bind.
    destruct (_cleanUp_body_spec key data_item self) as (Hr & Hf & Hc).
    destruct (_cleanUp_body (key, data_item) self) as [s1 r1]. simpl in *.
    subst r1. destruct (IH s1) as (IHr & IHf & IHc).
    split_and!; [done|by eapply eval_frame_trans|].
    intros k it Hl. apply IHc in Hl as [Hl Hrest]. rewrite Hc in Hl.
    assert (old it s1 ↔ old it self) as Hold.
    { unfold old, eval_frame in *. intuition lia. }
    destruct (decide (old data_item self)) as [Ho|Ho].
    + apply lookup_delete_Some in Hl as [Hne Hl]. split; [done|].
      intros [Heq|Hin]%elem_of_cons; [congruence|]. rewrite <- Hold. auto.
    + split; [done|].
      intros [Heq|Hin]%elem_of_cons; [congruence|]. rewrite <- Hold. auto.
Qed.

(** [_cleanUp] returns, and leaves no item older than the window. *)
Lemma _cleanUp_spec self :
  (_cleanUp self).2 = Return tt ∧
  eval_frame self (_cleanUp self).1 ∧
  ∀ k it,
    data_cache (_cleanUp self).1 !! k = Some it →
    data_cache self !! k = Some it ∧ ¬ old it self.
Proof.
  unfold _cleanUp. unfold_M.
  destruct (_cleanUp_loop_spec (map_to_list (data_cache self)) self)
    as (Hr & Hf & Hc).
  split_and!; [done..|]. intros k it Hl. apply Hc in Hl as [Hl Hn].
  split; [done|]. apply Hn. by apply elem_of_map_to_list.
Qed.

(** ** The release of frames *)

Lemma set_frame_list_sink_calls_id self :
  set_frame_list (frame_list self)
    (set_sink_calls (sink_calls self ++ []) self) = self.
Proof. destruct self. unfold set_frame_list, set_sink_calls. simpl.
  by rewrite app_nil_r. Qed.

Lemma showFrames_loop_spec ilog frames self :
  ∃ released remaining,
    frames = released ++ remaining ∧
    Forall (λ frame_data,
      _remainingTasksForFrame (_VideoDataItem.getFrameId frame_data) self
      = 0%nat) released ∧
    match remaining with
    | [] => True
    | frame_data :: _ =>
        _remainingTasksForFrame (_VideoDataItem.getFrameId frame_data) self
        ≠ 0%nat
    end ∧
    (frame_list self = frames →
     showFrames_loop frames ilog self
     = (set_frame_list remaining
          (set_sink_calls
             (sink_calls self ++ concat (sinks_for (show self) ilog <$> released))
             self),
        Return tt)).
Proof.
  revert self. induction frames as [|frame_data rest IH]; intros self.
  - exists [], []. split_and!; [done..|]. intros Hf. simpl. unfold_M.
    rewrite <- Hf. by rewrite set_frame_list_sink_calls_id.
  - destruct (decide (_remainingTasksForFrame
                        (_VideoDataItem.getFrameId frame_data) self = 0%nat))
      as [Hz|Hnz].
    + set (s1 := set_frame_list rest
             (set_sink_calls
                (sink_calls self ++ sinks_for (show self) ilog frame_data)
                self)).
      destruct (IH s1) as (released & remaining & Hrest & Hall & Hhd & Heq).
      exists (frame_data :: released), remaining.
      split_and!; [by rewrite Hrest|by constructor|done|]. intros Hf.
      cbn [showFrames_loop]. unfold_M.
      rewrite bool_decide_eq_true_2 by done.
      transitivity (showFrames_loop rest ilog s1).
      { unfold s1, sinks_for, call_sink. unfold_M.
        destruct (show self), ilog; simpl; f_equal;
          unfold set_frame_list, set_sink_calls; simpl;
          rewrite <- ?app_assoc, ?app_nil_r; reflexivity. }
      rewrite Heq by done. f_equal. unfold s1.
      unfold set_frame_list, set_sink_calls; simpl.
      by rewrite <- app_assoc.
    + exists [], (frame_data :: rest). split_and!; [done..|]. intros Hf.
      cbn [showFrames_loop]. unfold_M.
      rewrite bool_decide_eq_false_2 by done. simpl.
      rewrite <- Hf. by rewrite set_frame_list_sink_calls_id.
Qed.

(** ** [addFrame], step by step *)

Lemma _createTasksForFrame_foldl fid (factories : list (Z → task)) self :
  foldl (λ s factory, set_task_list (task_list s ++ [factory fid]) s)
    self factories
  = set_task_list (task_list self ++ ((λ factory, factory fid) <$> factories))
      self.
Proof.
  revert self. induction factories as [|factory rest IH]; intros self.
  - simpl. destruct self. unfold set_task_list. simpl. by rewrite app_nil_r.
  - cbn [foldl]. rewrite IH. unfold set_task_list. cbn.
    rewrite <- app_assoc. reflexivity.
Qed.

Lemma addFrame_unfold frame ilog self :
  addFrame frame ilog self =
  match _runTasks (before_runTasks frame self) with
  | (s1, Raise e) => (s1, Raise e)
  | (s1, Return _) =>
      let s2 := (_cleanUp s1).1 in
      showFrames ilog (set_frame_id (frame_id s2 + 1) s2)
  end.
Proof.
  unfold addFrame, new_item, cache_put, _createTasksForFrame. unfold_M.
  simpl. rewrite _createTasksForFrame_foldl.
  change (set_frame_list _ _) with (before_runTasks frame self).
  destruct (_runTasks (before_runTasks frame self)) as [s1 [[]|e]]; [|done].
  destruct (_cleanUp_spec s1) as (Hr & _).
  destruct (_cleanUp s1) as [s2 r]. simpl in *. by subst r.
Qed.

Lemma before_runTasks_frame_id frame self :
  frame_id (before_runTasks frame self) = frame_id self.
Proof. reflexivity. Qed.

(** [showFrames] returns; it assigns the frame list and calls the sinks, and
    nothing else. *)
Lemma showFrames_spec ilog self :
  ∃ released remaining,
    frame_list self = released ++ remaining ∧
    Forall (λ frame_data,
      _remainingTasksForFrame (_VideoDataItem.getFrameId frame_data) self
      = 0%nat) released ∧
    match remaining with
    | [] => True
    | frame_data :: _ =>
        _remainingTasksForFrame (_VideoDataItem.getFrameId frame_data) self
        ≠ 0%nat
    end ∧
    showFrames ilog self
    = (set_frame_list remaining
         (set_sink_calls
            (sink_calls self ++ concat (sinks_for (show self) ilog <$> released))
            self),
       Return tt).
Proof.
  destruct (showFrames_loop_spec ilog (frame_list self) self)
    as (released & remaining & H1 & H2 & H3 & H4).
  exists released, remaining. split_and!; [done..|].
  unfold showFrames. unfold_M. by apply H4.
Qed.

(** ** The sliding window *)

(** After [addFrame] has returned, the task list and the cache are those
    that [_runTasks] and [_cleanUp] left, and [frame_id] is one more. *)
Lemma addFrame_return frame ilog self self' :
  addFrame frame ilog self = (self', Return tt) →
  ∃ s1,
    _runTasks (before_runTasks frame self) = (s1, Return tt) ∧
    frame_id s1 = frame_id self ∧
    buffer_size s1 = buffer_size self ∧
    frame_id self' = frame_id self + 1 ∧
    buffer_size self' = buffer_size self ∧
    task_list self' = task_list s1 ∧
    data_cache self' = data_cache (_cleanUp s1).1.
Proof.
  rewrite addFrame_unfold.
  pose proof (_runTasks_spec (before_runTasks frame self)) as [Hrf _].
  destruct (_runTasks (before_runTasks frame self)) as [s1 [[]|e]]; [|done].
  simpl in Hrf. cbn zeta.
  destruct (_cleanUp_spec s1) as (_ & Hcf & _).
  destruct (showFrames_spec ilog
              (set_frame_id (frame_id (_cleanUp s1).1 + 1) (_cleanUp s1).1))
    as (released & remaining & _ & _ & _ & ->).
  intros [= <-]. exists s1. simpl.
  unfold run_frame, eval_frame in *. simpl in *.
  split_and!; try done; intuition congruence.
Qed.

(** C3, as the code has it.  When [addFrame] has returned, every task left
    in the task list satisfies [frame_id - task.frame_id <= buffer_size + 1],
    [frame_id] being the counter the call has just incremented: the test of
    [_evaluateTask] is made against the counter before the increment.  A task
    that fails that test is deleted, not kept, and the warning is printed when
    [debug_level >= 2]. *)
Theorem addFrame_task_window frame ilog self self' :
  addFrame frame ilog self = (self', Return tt) →
  Forall (λ t, frame_id self' - VideoTask.getFrameId t ≤ buffer_size self' + 1)
    (task_list self') ∧
  ∀ t s,
    frame_id s - VideoTask.getFrameId t > buffer_size s →
    _evaluateTask t s
    = (if bool_decide (debug_level s >= 2)
       then set_stdout
              (stdout s ++ [TaskNotExecuted (VideoTask.getFrameId t)]) s
       else s,
       Return false).
Proof.
  intros Hret. split.
  - apply addFrame_return in Hret
      as (s1 & Hrun & Hf1 & Hb1 & Hf & Hb & Ht & _).
    pose proof (_runTasks_spec (before_runTasks frame self)) as [_ Hk].
    rewrite Hrun in Hk. simpl in Hk. specialize (Hk eq_refl).
    rewrite Ht. eapply Forall_impl; [exact Hk|].
    intros t [Hs _]. unfold stale in Hs. lia.
  - intros t s Hs. by rewrite _evaluateTask_stale.
Qed.

(** C2, as the code has it.  When [addFrame] has returned, every item of
    the data cache satisfies [item.frame_id >= frame_id - buffer_size - 1],
    [frame_id] being the counter the call has just incremented: [_cleanUp]
    runs before the increment. *)
Theorem addFrame_cache_window frame ilog self self' :
  addFrame frame ilog self = (self', Return tt) →
  ∀ key data_item,
    data_cache self' !! key = Some data_item →
    frame_id self' - buffer_size self' - 1
    ≤ _VideoDataItem.getFrameId data_item.
Proof.
  intros Hret key data_item Hl.
  apply addFrame_return in Hret
    as (s1 & Hrun & Hf1 & Hb1 & Hf & Hb & _ & Hc).
  rewrite Hc in Hl. destruct (_cleanUp_spec s1) as (_ & _ & Hclean).
  apply Hclean in Hl as [_ Hold]. unfold old in Hold. lia.
Qed.

(** C8.  An evaluation that returns [True] (keep) leaves the manager as it
    was, cache and counters included; and it returns [True] only because a
    length-2 key of the request is not in the cache. *)
Theorem _evaluateTask_keep_unchanged t self self' :
  _evaluateTask t self = (self', Return true) →
  self' = self ∧
  ∃ before ty fid after,
    VideoTask.required t = before ++ Key2 ty fid :: after ∧
    data_cache self !! (ty, fid) = None.
Proof.
  intros He. apply _evaluateTask_keep_inv in He as (-> & _ & Hn).
  split; [done|]. apply resolve_None in Hn
    as (before & ty & fid & after & Hreq & Hm & _).
  by exists before, ty, fid, after.
Qed.

(** C5.  The loop of [_runTasks] ends: a scan never retains more tasks than
    it started with; when it retains as many, [_runTasks] returns after that
    scan; when it retains fewer, the loop goes on from the shorter list; and
    one scan more than there are tasks is all the loop ever needs. *)
Theorem _runTasks_terminates self :
  (∃ r, _runTasks self = r ∧
        ∀ fuel, (length (task_list self) < fuel)%nat →
                _runTasks_loop fuel self = Some r) ∧
  (∀ s1 kept,
     py_filter _evaluateTask (task_list self) self = (s1, Return kept) →
     (length kept = length (task_list self) ∧
      _runTasks self = (set_task_list kept s1, Return tt)) ∨
     ((length kept < length (task_list self))%nat ∧
      _runTasks self = _runTasks (set_task_list kept s1))) ∧
  (∀ s1 e,
     py_filter _evaluateTask (task_list self) self = (s1, Raise e) →
     _runTasks self = (s1, Raise e)).
Proof.
  split_and!.
  - destruct (_runTasks_loop_enough (S (length (task_list self))) self)
      as [r Hr]; [lia|].
    exists r. split; [unfold _runTasks; by rewrite Hr|].
    intros fuel Hlt. rewrite <- Hr. apply _runTasks_loop_fuel; lia.
  - intros s1 kept Hscan. rewrite _runTasks_unfold, Hscan.
    apply py_filter_length in Hscan. case_bool_decide; [left|right].
    + done.
    + split; [lia|done].
  - intros s1 e Hscan. by rewrite _runTasks_unfold, Hscan.
Qed.

(** ** Errors and their way to the caller *)

Lemma evaluated_in_runTasks_frame self t s :
  evaluated_in_runTasks self t s → run_frame self s.
Proof.
  induction 1 as [self l1 t l2 s k1 Hl Hscan|self s1 kept t s Hscan Hlen _ IH].
  - pose proof (py_filter_eval_frame _evaluateTask l1 self
                  _evaluateTask_eval_frame) as Hf.
    rewrite Hscan in Hf. frame_tac.
  - pose proof (py_filter_eval_frame _evaluateTask (task_list self) self
                  _evaluateTask_eval_frame) as Hf.
    rewrite Hscan in Hf. eapply run_frame_trans; [|exact IH]. frame_tac.
Qed.

(** An exception raised by an evaluation is raised by [_runTasks]... *)
Lemma _runTasks_raise self t s s' e :
  evaluated_in_runTasks self t s →
  _evaluateTask t s = (s', Raise e) →
  _runTasks self = (s', Raise e).
Proof.
  induction 1 as [self l1 t l2 s k1 Hl Hscan|self s1 kept t s Hscan Hlen _ IH];
    intros He; rewrite _runTasks_unfold.
  - rewrite Hl. by rewrite (py_filter_raise _ _ _ _ _ _ _ _ _ Hscan He).
  - rewrite Hscan. rewrite bool_decide_eq_false_2 by done. by apply IH.
Qed.

(** ... and by [addFrame], which does nothing more. *)
Lemma addFrame_raise frame ilog self t s s' e :
  evaluated_in_runTasks (before_runTasks frame self) t s →
  _evaluateTask t s = (s', Raise e) →
  addFrame frame ilog self = (s', Raise e).
Proof.
  intros Hev He. rewrite addFrame_unfold.
  by rewrite (_runTasks_raise _ _ _ _ _ Hev He).
Qed.


(** Storing a result stops at the first item that has not three elements:
    the items before it are in the cache by then. *)
Lemma store_result_app_bad (pre : list (DataTuple payload)) bad post self :
  Forall (λ data_item, tuple_len data_item = 3%nat) pre →
  tuple_len bad ≠ 3%nat →
  store_result (pre ++ bad :: post) self
  = ((store_result pre self).1, Raise NotThreeElements) ∧
  (store_result pre self).2 = Return tt.
Proof.
  intros Hpre Hbad. revert self.
  induction Hpre as [|x pre Hx Hpre IH]; intros self.
  - simpl. unfold_M. destruct bad; done.
  - apply tuple_len_3 in Hx as (ty & fid & data & ->).
    simpl. unfold new_item, cache_put. unfold_M. simpl. apply IH.
Qed.

(** [store_result] writes at the keys of the result and nowhere else. *)
Lemma store_result_other (result : list (DataTuple payload)) self ty fid :
  (∀ data, Tuple3 ty fid data ∉ result) →
  data_cache (store_result result self).1 !! (ty, fid)
  = data_cache self !! (ty, fid).
Proof.
  revert self. induction result as [|x rest IH]; intros self Hnot; [done|].
  destruct x as [| | |ty' fid' data'|]; try done.
  simpl. unfold new_item, cache_put. unfold_M. simpl.
  rewrite IH.
  - simpl. apply lookup_insert_ne. intros [= -> ->].
    apply (Hnot data'). by left.
  - intros data Hin. apply (Hnot data). by right.
Qed.

(** The last item stored at a key is the one the cache holds. *)
Lemma store_result_lookup (result : list (DataTuple payload)) self i ty fid data :
  result !! i = Some (Tuple3 ty fid data) →
  (∀ j data', (i < j)%nat → result !! j ≠ Some (Tuple3 ty fid data')) →
  (store_result result self).2 = Return tt →
  ∃ oid,
    data_cache (store_result result self).1 !! (ty, fid)
    = Some (_VideoDataItem.mk oid ty fid data).
Proof.
  revert self i. induction result as [|x rest IH]; intros self i Hi Hlast Hret.
  - done.
  - destruct x as [| | |ty' fid' data'|]; try done.
    simpl in *. unfold new_item, cache_put in *. unfold_M. simpl in *.
    destruct i as [|i]; simpl in Hi.
    + simplify_eq. rewrite store_result_other.
      * simpl. rewrite lookup_insert_eq. by eexists.
      * intros data' [j Hj]%list_elem_of_lookup.
        apply (Hlast (S j) data'); [lia|done].
    + eapply IH; [done| |done]. intros j data'' Hlt.
      apply (Hlast (S j) data''). lia.
Qed.

Lemma touch_all_spec data_items self :
  touch_all data_items self
  = (set_touched_store (foldl ref_touch (touched_store self) data_items) self,
     Return tt).
Proof. reflexivity. Qed.



Lemma fire_unfold t data_items self :
  fire t data_items self
  = match VideoTask.execute t (ref_getData <$> data_items) with
    | NoLen => ((touch_all data_items self).1, Raise NotAValidList)
    | Items result =>
        match store_result result (touch_all data_items self).1 with
        | (s', Return _) => (s', Return false)
        | (s', Raise e) => (s', Raise e)
        end
    end.
Proof.
  unfold fire. unfold_M. rewrite touch_all_spec. simpl.
  destruct (VideoTask.execute _ _); [done|].
  by destruct (store_result _ _) as [s' [[]|e]].
Qed.


(** C9.  Let a task be evaluated during [addFrame], within the window and
    with its inputs resolved, and let [execute] return a list whose items
    before the k-th have three elements while the k-th has not.  Then
    [addFrame] raises, with the manager as the storing of those first k-1
    items left it: each of them is in the cache (under its key, the last one
    stored there), [frame_id] is not incremented, no sink is called, and the
    frame of the call stays in the frame list. *)
Theorem addFrame_failure_not_atomic frame ilog self t s data_items pre bad post :
  evaluated_in_runTasks (before_runTasks frame self) t s →
  ¬ stale t s →
  resolve (data_cache s) (VideoTask.required t) = Some data_items →
  VideoTask.execute t (ref_getData <$> data_items)
  = Items (pre ++ bad :: post) →
  Forall (λ data_item, tuple_len data_item = 3%nat) pre →
  tuple_len bad ≠ 3%nat →
  ∃ s',
    addFrame frame ilog self = (s', Raise NotThreeElements) ∧
    s' = (store_result pre (touch_all data_items s).1).1 ∧
    frame_id s' = frame_id self ∧
    sink_calls s' = sink_calls self ∧
    frame_list s'
    = frame_list self
      ++ [_VideoDataItem.mk (length (touched_store self)) "FRAME"
            (frame_id self) frame] ∧
    ∀ i ty fid data,
      pre !! i = Some (Tuple3 ty fid data) →
      (∀ j data', (i < j)%nat → pre !! j ≠ Some (Tuple3 ty fid data')) →
      ∃ oid,
        data_cache s' !! (ty, fid) = Some (_VideoDataItem.mk oid ty fid data).
Proof.
  intros Hev Hs Hr Hx Hpre Hbad.
  pose proof (_evaluateTask_fire _ _ _ Hs Hr) as He.
  rewrite fire_unfold, Hx in He.
  destruct (store_result_app_bad pre bad post (touch_all data_items s).1
              Hpre Hbad) as [Hst Hok].
  rewrite Hst in He.
  exists (store_result pre (touch_all data_items s).1).1.
  pose proof (evaluated_in_runTasks_frame _ _ _ Hev) as Hf1.
  pose proof (_evaluateTask_eval_frame t s) as Hf2. rewrite He in Hf2.
  simpl in Hf2.
  split_and!; [by eapply addFrame_raise|done|frame_tac..|].
  intros i ty fid data Hi Hlast. by eapply store_result_lookup.
Qed.

(** ** Keys that carry a default *)

Lemma resolve_lookup cache (data_request : list (RequestKey payload))
    data_items i key :
  resolve cache data_request = Some data_items →
  data_request !! i = Some key →
  ∃ each,
    data_items !! i = Some each ∧
    match cache !! key_slice2 key with
    | Some it => each = Cached it
    | None => ∃ ty fid d, key = Key3 ty fid d ∧ each = Synthetic ty fid d
    end.
Proof.
  revert data_items i.
  induction data_request as [|k rest IH]; intros data_items i Hr Hi; [done|].
  simpl in Hr. destruct i as [|i]; simpl in Hi.
  - simplify_eq. destruct (cache !! key_slice2 key) as [it|] eqn:Hc.
    + apply fmap_Some in Hr as (items & _ & ->). by eexists.
    + destruct key as [ty fid|ty fid d]; [done|].
      apply fmap_Some in Hr as (items & _ & ->). eexists. split; [done|].
      by exists ty, fid, d.
  - assert (∃ each0 items, resolve cache rest = Some items ∧
                           data_items = each0 :: items) as (e0 & items & Hrest & ->).
    { destruct (cache !! key_slice2 k).
      - apply fmap_Some in Hr as (items & ? & ->). eauto.
      - destruct k; [done|].
        apply fmap_Some in Hr as (items & ? & ->). eauto. }
    simpl. by eapply IH.
Qed.

Lemma resolve_Some cache (data_request : list (RequestKey payload)) :
  (∀ ty fid, Key2 ty fid ∈ data_request → is_Some (cache !! (ty, fid))) →
  is_Some (resolve cache data_request).
Proof.
  intros Hall. destruct (resolve cache data_request) eqn:Hr; [by eexists|].
  apply resolve_None in Hr as (before & ty & fid & after & -> & Hm & _).
  destruct (Hall ty fid) as [it Hit]; [|congruence].
  apply elem_of_app. right. by left.
Qed.

(** C6.  Let a task within the window have the key [(ty, fid, default)] in
    its request, every length-2 key of the request being in the cache.  Then
    the inputs resolve and [execute] is called; its argument at the place of
    that key is the payload of the cached item if the cache holds one at
    [(ty, fid)], and [default] otherwise, from an item that is built for this
    call alone: unless the task itself returns an item for [(ty, fid)], the
    cache still holds nothing there after the evaluation. *)
Theorem optional_key_default t self before ty fid default after :
  ¬ stale t self →
  VideoTask.required t = before ++ Key3 ty fid default :: after →
  (∀ ty' fid',
     Key2 ty' fid' ∈ VideoTask.required t →
     is_Some (data_cache self !! (ty', fid'))) →
  ∃ data_items,
    resolve (data_cache self) (VideoTask.required t) = Some data_items ∧
    _evaluateTask t self = fire t data_items self ∧
    data_items !! length before
    = Some match data_cache self !! (ty, fid) with
           | Some it => Cached it
           | None => Synthetic ty fid default
           end ∧
    (ref_getData <$> data_items) !! length before
    = Some match data_cache self !! (ty, fid) with
           | Some it => _VideoDataItem.getData it
           | None => default
           end ∧
    (data_cache self !! (ty, fid) = None →
     (∀ result,
        VideoTask.execute t (ref_getData <$> data_items) = Items result →
        ∀ data, Tuple3 ty fid data ∉ result) →
     data_cache (_evaluateTask t self).1 !! (ty, fid) = None).
Proof.
  intros Hs Hreq Hall.
  destruct (resolve_Some _ _ Hall) as [data_items Hr].
  exists data_items.
  pose proof (_evaluateTask_fire _ _ _ Hs Hr) as He.
  assert (data_items !! length before
          = Some match data_cache self !! (ty, fid) with
                 | Some it => Cached it
                 | None => Synthetic ty fid default
                 end) as Hitem.
  { destruct (resolve_lookup _ _ _ (length before) (Key3 ty fid default) Hr)
      as (each & Hi & Hm).
    { rewrite Hreq. by apply list_lookup_middle. }
    rewrite Hi. simpl in Hm. destruct (data_cache self !! (ty, fid)).
    - by subst.
    - destruct Hm as (? & ? & ? & [= <- <- <-] & ->). done. }
  split_and!; [done..| |].
  - rewrite list_lookup_fmap, Hitem.
    by destruct (data_cache self !! (ty, fid)).
  - intros Hnone Hres. rewrite He, fire_unfold.
    destruct (VideoTask.execute t (ref_getData <$> data_items))
      as [|result] eqn:Hx; [done|].
    specialize (Hres result eq_refl).
    pose proof (store_result_other result (touch_all data_items self).1
                  ty fid Hres) as Hother.
    destruct (store_result result (touch_all data_items self).1)
      as [s' [[]|e]]; simpl in *; by rewrite Hother.
Qed.

(** ** The frame list and the cache *)


Lemma _remainingTasksForFrame_0 fid self :
  _remainingTasksForFrame fid self = 0%nat ↔
  Forall (λ t, VideoTask.getFrameId t ≠ fid) (task_list self).
Proof.
  unfold _remainingTasksForFrame.
  assert (∀ l n,
    foldl (λ count (t : task),
             if bool_decide (VideoTask.getFrameId t = fid)
             then S count else count) n l = 0%nat ↔
    n = 0%nat ∧ Forall (λ t, VideoTask.getFrameId t ≠ fid) l) as Hgen.
  { induction l as [|t l IH]; intros n; simpl.
    - split; [by intros ->|by intros [-> _]].
    - rewrite IH. case_bool_decide as Hc.
      + split; [by intros [? _]|]. intros [_ Hf].
        by apply Forall_cons_1 in Hf as [? _].
      + split; [intros [-> Hf]; by split; [|constructor]|].
        intros [-> Hf]. apply Forall_cons_1 in Hf as [_ Hf]. done. }
  rewrite Hgen. split; [by intros [_ ?]|by intros ?; split].
Qed.


(** ** The order of release *)

Lemma shown_sinks_for ilog (released : list item) :
  shown (concat (sinks_for true ilog <$> released))
  = _VideoDataItem.getData <$> released.
Proof.
  induction released as [|fd released IH]; [done|].
  rewrite fmap_cons. cbn [concat]. unfold shown in *. rewrite omap_app, IH.
  unfold sinks_for. by destruct ilog.
Qed.

Lemma shown_sinks_for_false ilog (released : list item) :
  shown (concat (sinks_for false ilog <$> released)) = [].
Proof.
  induction released as [|fd released IH]; [done|].
  rewrite fmap_cons. cbn [concat]. unfold shown in *. rewrite omap_app, IH.
  unfold sinks_for. by destruct ilog.
Qed.

Lemma logged_sinks_for show ilog (released : list item) :
  logged (concat (sinks_for show ilog <$> released))
  `sublist_of` _VideoDataItem.getData <$> released.
Proof.
  induction released as [|fd released IH]; [done|].
  rewrite !fmap_cons. cbn [concat]. unfold logged in *. rewrite omap_app.
  unfold sinks_for at 1.
  destruct show, ilog; simpl; by (apply sublist_skip || apply sublist_cons).
Qed.

(** One call of [addFrame], whether it returns or raises: the frames it
    hands to the sinks are the first frames of the frame list, the new frame
    being at its end; none has a task left in the task list; the others stay
    in the list. *)
Lemma addFrame_release frame ilog self :
  ∃ released,
    frame_list self
    ++ [_VideoDataItem.mk (length (touched_store self)) "FRAME"
          (frame_id self) frame]
    = released ++ frame_list (addFrame frame ilog self).1 ∧
    sink_calls (addFrame frame ilog self).1
    = sink_calls self ++ concat (sinks_for (show self) ilog <$> released) ∧
    Forall (λ frame_data,
      Forall (λ t, VideoTask.getFrameId t ≠ _VideoDataItem.getFrameId frame_data)
        (task_list (addFrame frame ilog self).1)) released ∧
    show (addFrame frame ilog self).1 = show self.
Proof.
  rewrite addFrame_unfold.
  pose proof (_runTasks_spec (before_runTasks frame self)) as [Hrf _].
  destruct (_runTasks (before_runTasks frame self)) as [s1 [[]|e]].
  - cbn zeta. destruct (_cleanUp_spec s1) as (_ & Hcf & _).
    set (s3 := set_frame_id (frame_id (_cleanUp s1).1 + 1) (_cleanUp s1).1).
    destruct (showFrames_spec ilog s3)
      as (released & remaining & Hsplit & Hrel & _ & ->).
    exists released. simpl in *.
    assert (show (_cleanUp s1).1 = show self) as -> by frame_tac.
    split_and!; [|f_equal; frame_tac| |done].
    + rewrite <- Hsplit. frame_tac.
    + eapply Forall_impl; [exact Hrel|]. intros fd Hz.
      by apply _remainingTasksForFrame_0 in Hz.
  - exists []. simpl in *. rewrite app_nil_r. split_and!; try done; frame_tac.
Qed.

Lemma run_snoc calls c self :
  run (calls ++ [c]) self = do_call c (run calls self).
Proof. unfold run. by rewrite foldl_app. Qed.

(** What every sequence of calls maintains, from a new manager on. *)
Lemma run_released debug_level buffer_size show0 (calls : list (call payload)) :
  ∃ released,
    ingested calls
    = released
      ++ (_VideoDataItem.getData
            <$> frame_list (run calls (init debug_level buffer_size show0))) ∧
    show (run calls (init debug_level buffer_size show0)) = show0 ∧
    (show0 = true →
     shown (sink_calls (run calls (init debug_level buffer_size show0)))
     = released) ∧
    (show0 = false →
     shown (sink_calls (run calls (init debug_level buffer_size show0))) = []) ∧
    logged (sink_calls (run calls (init debug_level buffer_size show0)))
    `sublist_of` released.
Proof.
  induction calls as [|c calls IH] using rev_ind.
  - exists []. by split_and!.
  - destruct IH as (released & Hing & Hshow & Hshown & Hnot & Hlog).
    rewrite run_snoc. unfold ingested in *. rewrite omap_app.
    set (s := run calls (init debug_level buffer_size show0)) in *.
    destruct c as [task_factory|frame ilog]; simpl.
    + exists released. rewrite app_nil_r. by split_and!.
    + destruct (addFrame_release frame ilog s)
        as (released' & Hsplit & Hsinks & _ & Hshow').
      exists (released ++ (_VideoDataItem.getData <$> released')).
      rewrite Hsinks, Hshow', Hshow. unfold shown, logged in *.
      rewrite !omap_app. split_and!.
      * rewrite Hing, <- !app_assoc. f_equal.
        rewrite <- fmap_app, <- Hsplit, fmap_app. done.
      * done.
      * intros ->. rewrite Hshown by done. f_equal. apply shown_sinks_for.
      * intros ->. rewrite Hnot by done. apply shown_sinks_for_false.
      * apply sublist_app; [done|]. apply logged_sinks_for.
Qed.

(** C1.  In every call of [addFrame], the frames handed to the sinks are
    the leading frames of the frame list (the list of the frames not yet
    released, the new frame last), in that order, and each of them has no
    task of its [frame_id] in the task list; the others stay in the list.
    So, after any sequence of calls on a new manager, the frames that have
    left the frame list are a prefix of the frames given to [addFrame], the
    frame list being the rest; they are the frames displayed, when [show] is
    set, and every frame given to a log is among them, in order. *)
Theorem frames_released_in_order debug_level buffer_size show0
    (calls : list (call payload)) :
  (∀ frame ilog self,
     ∃ released,
       frame_list self
       ++ [_VideoDataItem.mk (length (touched_store self)) "FRAME"
             (frame_id self) frame]
       = released ++ frame_list (addFrame frame ilog self).1 ∧
       sink_calls (addFrame frame ilog self).1
       = sink_calls self ++ concat (sinks_for (show self) ilog <$> released) ∧
       Forall (λ frame_data,
         Forall (λ t, VideoTask.getFrameId t
                      ≠ _VideoDataItem.getFrameId frame_data)
           (task_list (addFrame frame ilog self).1)) released) ∧
  ∃ released,
    ingested calls
    = released
      ++ (_VideoDataItem.getData
            <$> frame_list (run calls (init debug_level buffer_size show0))) ∧
    (show0 = true →
     shown (sink_calls (run calls (init debug_level buffer_size show0)))
     = released) ∧
    logged (sink_calls (run calls (init debug_level buffer_size show0)))
    `sublist_of` released.
Proof.
  split.
  - intros frame ilog self.
    destruct (addFrame_release frame ilog self) as (released & H1 & H2 & H3 & _).
    by exists released.
  - destruct (run_released debug_level buffer_size show0 calls)
      as (released & H1 & _ & H2 & _ & H3).
    by exists released.
Qed.

(** ** Tasks that ask for nothing *)

(** A scan is the evaluation of the tasks one after the other, each in the
    manager that the one before has left. *)
Lemma py_filter_middle {A} (f : A → M bool) l1 x l2 s s' kept :
  py_filter f (l1 ++ x :: l2) s = (s', Return kept) →
  ∃ sa k1 sb b k2,
    py_filter f l1 s = (sa, Return k1) ∧
    f x sa = (sb, Return b) ∧
    py_filter f l2 sb = (s', Return k2) ∧
    kept = k1 ++ (if b : bool then [x] else []) ++ k2.
Proof.
  revert s kept. induction l1 as [|y l1 IH]; intros s kept.
  - simpl. unfold_M. destruct (f x s) as [sb [b|e]] eqn:Hx; [|done].
    destruct (py_filter f l2 sb) as [s2 [k2|e]] eqn:H2; [|done].
    intros [= <- <-]. exists s, [], sb, b, k2. split_and!; try done.
    by destruct b.
  - simpl. unfold_M. destruct (f y s) as [sy [by_|e]] eqn:Hy; [|done].
    destruct (py_filter f (l1 ++ x :: l2) sy) as [s2 [kept'|e]] eqn:Hrest;
      [|done].
    intros [= <- <-].
    destruct (IH _ _ Hrest) as (sa & k1 & sb & b & k2 & H1 & Hx & H2 & ->).
    rewrite H1. exists sa, (if by_ then y :: k1 else k1), sb, b, k2.
    split_and!; try done. by destruct by_.
Qed.

Lemma touch_all_nil s : touch_all [] s = (s, Return tt).
Proof. rewrite touch_all_spec. by destruct s. Qed.

Lemma store_result_Return (result : list (DataTuple payload)) s :
  (store_result result s).2 = Return tt →
  Forall (λ data_item, tuple_len data_item = 3%nat) result.
Proof.
  revert s. induction result as [|x rest IH]; intros s Hret; [constructor|].
  destruct x as [| | |ty fid data|]; try done.
  constructor; [done|]. simpl in Hret. unfold new_item, cache_put in Hret.
  unfold_M. simpl in Hret. by eapply IH.
Qed.

(** The evaluation of a task whose request is empty: deleted with a
    warning when it is out of the window; else [execute] is called without
    arguments and, unless the evaluation raises, its items are stored. *)
Lemma _evaluateTask_no_input t s sb b :
  VideoTask.required t = [] →
  _evaluateTask t s = (sb, Return b) →
  b = false ∧
  if decide (stale t s)
  then sb = (warn (TaskNotExecuted (VideoTask.getFrameId t)) s).1
  else ∃ result,
         VideoTask.execute t [] = Items result ∧
         Forall (λ data_item, tuple_len data_item = 3%nat) result ∧
         sb = (store_result result s).1.
Proof.
  intros Hreq He. destruct (decide (stale t s)) as [Hs|Hs].
  - rewrite _evaluateTask_stale in He by done. by injection He as <- <-.
  - rewrite (_evaluateTask_fire t s []) in He by (by rewrite ?Hreq).
    rewrite fire_unfold, touch_all_nil in He. cbn [fmap list_fmap fst] in He.
    destruct (VideoTask.execute t []) as [|result]; [done|].
    pose proof (store_result_Return result s) as Hall.
    destruct (store_result result s) as [s' [[]|e]] eqn:Hst; [|done].
    injection He as <- <-. split; [done|]. exists result.
    split_and!; [done|by apply Hall|by rewrite Hst].
Qed.

(** C7.  When [addFrame] has returned, no task whose [required()] is the
    empty list is left in the task list.  Such a task is never kept by an
    evaluation: it is deleted as stale, or [execute] is called without
    arguments; so no scan of the task list, the first one included, retains
    it.  And the first scan does evaluate it: for every such task of the
    list that [_runTasks] is called with, the scan evaluates the tasks
    before it, then the task itself (in the manager they have left, with a
    warning if it is out of the window, and else with the items of
    [execute()] stored in the cache), then the tasks after it, and retains
    what these evaluations keep; the loop goes on from that list, which is
    shorter, and the task list that [addFrame] leaves is the one that the loop
    ends with. *)
Theorem addFrame_no_empty_requirement frame ilog self self' :
  addFrame frame ilog self = (self', Return tt) →
  Forall (λ t, VideoTask.required t ≠ []) (task_list self') ∧
  (∀ s1 kept,
     py_filter _evaluateTask (task_list (before_runTasks frame self))
       (before_runTasks frame self) = (s1, Return kept) →
     Forall (λ t, VideoTask.required t ≠ []) kept) ∧
  (∀ t s,
     VideoTask.required t = [] →
     _evaluateTask t s
     = if decide (stale t s)
       then ((warn (TaskNotExecuted (VideoTask.getFrameId t)) s).1,
             Return false)
       else fire t [] s) ∧
  (∀ l1 t l2,
     task_list (before_runTasks frame self) = l1 ++ t :: l2 →
     VideoTask.required t = [] →
     ∃ sa k1 sb s1 k2,
       py_filter _evaluateTask l1 (before_runTasks frame self)
       = (sa, Return k1) ∧
       _evaluateTask t sa = (sb, Return false) ∧
       (if decide (stale t sa)
        then sb = (warn (TaskNotExecuted (VideoTask.getFrameId t)) sa).1
        else ∃ result,
               VideoTask.execute t [] = Items result ∧
               Forall (λ data_item, tuple_len data_item = 3%nat) result ∧
               sb = (store_result result sa).1) ∧
       py_filter _evaluateTask l2 sb = (s1, Return k2) ∧
       py_filter _evaluateTask (task_list (before_runTasks frame self))
         (before_runTasks frame self) = (s1, Return (k1 ++ k2)) ∧
       _runTasks (before_runTasks frame self)
       = _runTasks (set_task_list (k1 ++ k2) s1)) ∧
  _runTasks (before_runTasks frame self)
  = ((_runTasks (before_runTasks frame self)).1, Return tt) ∧
  task_list self' = task_list (_runTasks (before_runTasks frame self)).1.
Proof.
  intros Hret.
  destruct (addFrame_return _ _ _ _ Hret)
    as (srun & Hrun & _ & _ & _ & _ & Ht & _).
  split_and!.
  - pose proof (_runTasks_spec (before_runTasks frame self)) as [_ Hk].
    rewrite Hrun in Hk. simpl in Hk. specialize (Hk eq_refl).
    rewrite Ht. eapply Forall_impl; [exact Hk|]. by intros t [_ Hne].
  - intros s1 kept Hscan. apply scan_kept in Hscan.
    eapply Forall_impl; [exact Hscan|]. intros t [_ (s & _ & Hn)].
    by eapply resolve_None_nonempty.
  - intros t s Hreq. destruct (decide (stale t s)) as [Hs|Hs].
    + by apply _evaluateTask_stale.
    + apply _evaluateTask_fire; [done|]. by rewrite Hreq.
  - intros l1 t l2 Hl Hreq.
    pose proof (_runTasks_unfold (before_runTasks frame self)) as Hunf.
    rewrite Hrun in Hunf.
    destruct (py_filter _evaluateTask (task_list (before_runTasks frame self))
                (before_runTasks frame self)) as [s1 [kept|e]] eqn:Hscan;
      [|done].
    pose proof Hscan as Hscan'. rewrite Hl in Hscan'.
    apply py_filter_middle in Hscan'
      as (sa & k1 & sb & b & k2 & H1 & Hx & H2 & ->).
    destruct (_evaluateTask_no_input _ _ _ _ Hreq Hx) as [-> Hsb].
    simpl in *. exists sa, k1, sb, s1, k2.
    split_and!; try done.
    rewrite Hrun, Hunf.
    apply py_filter_length in H1. apply py_filter_length in H2.
    rewrite bool_decide_eq_false_2; [done|].
    rewrite Hl, !length_app. simpl. lia.
  - by rewrite Hrun.
  - by rewrite Hrun.
Qed.

(** * Further properties *)

(** ** A relation kept by every step is kept by the methods *)

Section steps.
Variable R : vtm → vtm → Prop.
Hypothesis R_refl : ∀ s, R s s.
Hypothesis R_trans : ∀ s1 s2 s3, R s1 s2 → R s2 s3 → R s1 s3.
Hypothesis R_warn : ∀ w s, R s (warn w s).1.
Hypothesis R_touch : ∀ data_items s, R s (touch_all data_items s).1.
Hypothesis R_put : ∀ ty fid data s,
  R s (set_data_cache
         (<[(ty, fid) := _VideoDataItem.mk (length (touched_store s)) ty fid data]>
            (data_cache s))
         (set_touched_store (touched_store s ++ [0%nat]) s)).
Hypothesis R_tasks : ∀ l s, R s (set_task_list l s).

Lemma store_result_steps result s : R s (store_result result s).1.
Proof.
  revert s. induction result as [|data_item rest IH]; intros s; [apply R_refl|].
  destruct data_item as [| | |ty fid data|]; try apply R_refl.
  simpl. unfold new_item, cache_put. unfold_M. simpl.
  eapply R_trans; [apply (R_put ty fid data)|apply IH].
Qed.

Lemma _evaluateTask_steps t s : R s (_evaluateTask t s).1.
Proof.
  destruct (decide (stale t s)) as [Hs|Hs].
  { rewrite _evaluateTask_stale by done. apply R_warn. }
  destruct (resolve (data_cache s) (VideoTask.required t))
    as [data_items|] eqn:Hr.
  - rewrite (_evaluateTask_fire _ _ _ Hs Hr), fire_unfold.
    destruct (VideoTask.execute _ _) as [|result]; [apply R_touch|].
    pose proof (store_result_steps result (touch_all data_items s).1) as H.
    destruct (store_result result _) as [s' [[]|e]]; simpl in *;
      (eapply R_trans; [apply R_touch|exact H]).
  - rewrite _evaluateTask_missing by done. apply R_refl.
Qed.

Lemma py_filter_steps l s : R s (py_filter _evaluateTask l s).1.
Proof.
  revert s. induction l as [|t rest IH]; intros s; [apply R_refl|].
  simpl. unfold_M. pose proof (_evaluateTask_steps t s) as Ht.
  destruct (_evaluateTask t s) as [s1 [b|e]]; simpl in *; [|done].
  pose proof (IH s1) as Hrest.
  destruct (py_filter _evaluateTask rest s1) as [s2 [kept|e]]; simpl in *;
    by eapply R_trans.
Qed.

Lemma _runTasks_steps s : R s (_runTasks s).1.
Proof.
  pattern s, (_runTasks s). apply _runTasks_ind; clear s.
  - intros s s1 e Hscan. pose proof (py_filter_steps (task_list s) s) as H.
    by rewrite Hscan in H.
  - intros s s1 kept Hscan _. pose proof (py_filter_steps (task_list s) s) as H.
    rewrite Hscan in H. simpl in *. eapply R_trans; [exact H|apply R_tasks].
  - intros s s1 kept Hscan _ IH.
    pose proof (py_filter_steps (task_list s) s) as H.
    rewrite Hscan in H. simpl in *.
    eapply R_trans; [exact H|]. eapply R_trans; [apply R_tasks|exact IH].
Qed.
End steps.

(** ** [_cleanUp], exactly *)

Lemma old_eval_frame it s s' : eval_frame s s' → old it s' ↔ old it s.
Proof. unfold old, eval_frame. intros (_ & -> & _ & _ & -> & _). done. Qed.

Lemma _cleanUp_loop_keeps (l : list (string * Z * item)) s k :
  (∀ it, (k, it) ∈ l → ¬ old it s) →
  data_cache (for_each l _cleanUp_body s).1 !! k = data_cache s !! k.
Proof.
  revert s. induction l as [|[key data_item] rest IH]; intros s Hk; [done|].
  cbn [for_each]. unfold mbind, M_bind, bind.
  destruct (_cleanUp_body_spec key data_item s) as (Hr & Hf & Hc).
  destruct (_cleanUp_body (key, data_item) s) as [s1 r1]. simpl in *.
  subst r1. rewrite IH.
  - rewrite Hc. destruct (decide (old data_item s)) as [Ho|Ho]; [|done].
    apply lookup_delete_ne. intros ->. apply (Hk data_item); [by left|done].
  - intros it Hin. rewrite (old_eval_frame _ _ _ Hf). apply Hk. by right.
Qed.

Lemma _cleanUp_loop_None (l : list (string * Z * item)) s k :
  data_cache s !! k = None →
  data_cache (for_each l _cleanUp_body s).1 !! k = None.
Proof.
  intros Hn. destruct (_cleanUp_loop_spec l s) as (_ & _ & Hc).
  destruct (data_cache (for_each l _cleanUp_body s).1 !! k) as [it|] eqn:Hl;
    [|done].
  apply Hc in Hl as [Hl _]. congruence.
Qed.

Lemma _cleanUp_loop_deletes (l : list (string * Z * item)) s k it :
  (k, it) ∈ l → old it s →
  data_cache (for_each l _cleanUp_body s).1 !! k = None.
Proof.
  revert s. induction l as [|[key data_item] rest IH]; intros s Hin Ho.
  - by apply elem_of_nil in Hin.
  - cbn [for_each]. unfold mbind, M_bind, bind.
    destruct (_cleanUp_body_spec key data_item s) as (Hr & Hf & Hc).
    destruct (_cleanUp_body (key, data_item) s) as [s1 r1]. simpl in *.
    subst r1. apply elem_of_cons in Hin as [Heq|Hin].
    + injection Heq as <- <-. apply _cleanUp_loop_None. rewrite Hc.
      rewrite decide_True by done. apply lookup_delete_eq.
    + apply IH; [done|]. by rewrite (old_eval_frame _ _ _ Hf).
Qed.

Lemma _cleanUp_keeps s k it :
  data_cache s !! k = Some it → ¬ old it s →
  data_cache (_cleanUp s).1 !! k = Some it.
Proof.
  intros Hl Ho. unfold _cleanUp. unfold_M. rewrite _cleanUp_loop_keeps; [done|].
  intros it' Hin%elem_of_map_to_list. congruence.
Qed.

(** [_cleanUp] deletes the items older than the window and no other: the
    cache it leaves is the cache it found, filtered. *)
Theorem _cleanUp_filter self :
  data_cache (_cleanUp self).1
  = filter (λ entry, ¬ old entry.2 self) (data_cache self).
Proof.
  apply map_eq. intros k. unfold _cleanUp. unfold_M.
  destruct (data_cache self !! k) as [it|] eqn:Hl.
  - destruct (decide (old it self)) as [Ho|Ho].
    + rewrite (_cleanUp_loop_deletes _ _ k it);
        [|by apply elem_of_map_to_list|done].
      symmetry. apply map_lookup_filter_None. right.
      intros it' Hl'. simpl. naive_solver.
    + rewrite _cleanUp_loop_keeps.
      * rewrite Hl. symmetry. by apply map_lookup_filter_Some.
      * intros it' Hin%elem_of_map_to_list. congruence.
  - rewrite _cleanUp_loop_None by done.
    symmetry. apply map_lookup_filter_None. by left.
Qed.

Lemma _cleanUp_loop_nothing_old (l : list (string * Z * item)) s :
  (∀ k it, (k, it) ∈ l → ¬ old it s) →
  for_each l _cleanUp_body s = (s, Return tt).
Proof.
  induction l as [|[key data_item] rest IH]; intros Hl; [done|].
  cbn [for_each]. unfold mbind, M_bind, bind.
  assert (_cleanUp_body (key, data_item) s = (s, Return tt)) as ->.
  { unfold _cleanUp_body. unfold_M.
    rewrite bool_decide_eq_false_2; [done|]. apply (Hl key). by left. }
  apply IH. intros k it Hin. apply (Hl k). by right.
Qed.

(** Eviction is idempotent: a second [_cleanUp] finds nothing to delete and
    leaves the manager, its output included, as the first one left it. *)
Theorem _cleanUp_idempotent self :
  _cleanUp (_cleanUp self).1 = ((_cleanUp self).1, Return tt).
Proof.
  destruct (_cleanUp_spec self) as (_ & Hf & Hc).
  unfold _cleanUp at 1. unfold_M.
  apply _cleanUp_loop_nothing_old.
  intros k it Hin%elem_of_map_to_list. apply Hc in Hin as [_ Ho].
  by rewrite (old_eval_frame _ _ _ Hf).
Qed.

Lemma _cleanUp_body_output key data_item s :
  touched_store (_cleanUp_body (key, data_item) s).1 = touched_store s ∧
  stdout (_cleanUp_body (key, data_item) s).1
  = stdout s
    ++ (if bool_decide (debug_level s >= 2)
        then (if decide (old data_item s ∧
                         _VideoDataItem.getTouched data_item (touched_store s)
                         = 0%nat)
              then [DataNeverUsed (_VideoDataItem.getType data_item)
                      (_VideoDataItem.getFrameId data_item)]
              else [])
        else []).
Proof.
  unfold _cleanUp_body, old, warn. unfold_M.
  repeat case_bool_decide; repeat case_decide; simpl;
    rewrite ?app_nil_r; split; (done || tauto).
Qed.

Lemma omap_ext_pointwise {A B} (f g : A → option B) (l : list A) :
  (∀ x, f x = g x) → omap f l = omap g l.
Proof.
  intros Hfg. induction l as [|x l IH]; [done|].
  cbn [omap list_omap]. by rewrite Hfg, IH.
Qed.

Lemma _cleanUp_loop_output (l : list (string * Z * item)) s :
  touched_store (for_each l _cleanUp_body s).1 = touched_store s ∧
  stdout (for_each l _cleanUp_body s).1
  = stdout s
    ++ (if bool_decide (debug_level s >= 2)
        then omap (λ entry : string * Z * item,
                     if decide (old entry.2 s ∧
                                _VideoDataItem.getTouched entry.2
                                  (touched_store s) = 0%nat)
                     then Some (DataNeverUsed (_VideoDataItem.getType entry.2)
                                  (_VideoDataItem.getFrameId entry.2))
                     else None) l
        else []).
Proof.
  revert s. induction l as [|[key data_item] rest IH]; intros s.
  - simpl. split; [done|]. case_bool_decide; by rewrite app_nil_r.
  - cbn [for_each]. unfold mbind, M_bind, bind.
    destruct (_cleanUp_body_spec key data_item s) as (Hr & Hf & _).
    destruct (_cleanUp_body_output key data_item s) as (Ht & Ho).
    destruct (_cleanUp_body (key, data_item) s) as [s1 r1]. simpl in *.
    subst r1. destruct (IH s1) as (IHt & IHo). split; [congruence|].
    assert (debug_level s1 = debug_level s) as Hd by frame_tac.
    rewrite IHo, Ho, Ht, Hd. clear IHo Ho.
    rewrite <- app_assoc. f_equal.
    destruct (bool_decide (debug_level s >= 2)); [|done].
    cbn [omap list_omap]. simpl.
    assert (∀ it, old it s1 ↔ old it s) as Hold
      by (intros it; by apply old_eval_frame).
    destruct (decide (old data_item s ∧ _)) as [Hdi|Hdi]; simpl;
      [f_equal|]; apply omap_ext_pointwise;
      intros [k it]; simpl;
      destruct (decide (old it s1 ∧ _)) as [H1|H1],
               (decide (old it s ∧ _)) as [H2|H2];
      try done; rewrite Hold in H1; tauto.
Qed.

Lemma _cleanUp_stdout self :
  touched_store (_cleanUp self).1 = touched_store self ∧
  stdout (_cleanUp self).1
  = stdout self
    ++ (if bool_decide (debug_level self >= 2) then never_used self else []).
Proof.
  unfold _cleanUp, never_used. unfold_M.
  apply _cleanUp_loop_output.
Qed.

(** What [_cleanUp] prints, whatever the order in which the keys of the
    dict are visited: at [debug_level >= 2], one warning for each item that
    it deletes with the counter [_touched] at 0, and nothing else; below,
    nothing.  It changes no counter. *)
Theorem _cleanUp_output self :
  touched_store (_cleanUp self).1 = touched_store self ∧
  ∃ printed,
    stdout (_cleanUp self).1 = stdout self ++ printed ∧
    printed
    ≡ₚ (if bool_decide (debug_level self >= 2) then never_used self else []).
Proof.
  destruct (_cleanUp_stdout self) as [Ht Ho]. split; [exact Ht|].
  eexists. split; [exact Ho|]. reflexivity.
Qed.

(** ** The counters [_touched] *)

Lemma times_in_cons oid each (data_items : list (DataItemRef payload)) :
  times_in oid (each :: data_items)
  = ((if refers_to oid each then 1 else 0) + times_in oid data_items)%nat.
Proof.
  unfold times_in. rewrite filter_cons.
  destruct (refers_to oid each); by case_decide.
Qed.

Lemma foldl_ref_touch_lookup oid (data_items : list (DataItemRef payload)) store :
  foldl ref_touch store data_items !! oid
  = (λ n, n + times_in oid data_items)%nat <$> store !! oid.
Proof.
  revert store. induction data_items as [|each rest IH]; intros store.
  - simpl. destruct (store !! oid); simpl; [|done]. f_equal. unfold times_in.
    simpl. lia.
  - cbn [foldl]. rewrite IH, times_in_cons.
    destruct each as [it|ty fid d]; simpl.
    + unfold _VideoDataItem.touch. rewrite list_lookup_alter.
      case_bool_decide as Hc; case_decide; try done; subst.
      destruct (store !! _VideoDataItem.oid it); simpl; [|done].
      f_equal. lia.
    + by destruct (store !! oid).
Qed.

Lemma store_result_store (result : list (DataTuple payload)) s :
  ∃ more, touched_store (store_result result s).1 = touched_store s ++ more.
Proof.
  revert s. induction result as [|data_item rest IH]; intros s.
  - exists []. simpl. by rewrite app_nil_r.
  - destruct data_item as [| | |ty fid data|];
      try (exists []; simpl; by rewrite app_nil_r).
    simpl. unfold new_item, cache_put. unfold_M. simpl.
    destruct (IH (set_data_cache
                    (<[(ty, fid) := _VideoDataItem.mk
                                      (length (touched_store s)) ty fid data]>
                       (data_cache s))
                    (set_touched_store (touched_store s ++ [0%nat]) s)))
      as [more Hmore].
    exists (0%nat :: more). rewrite Hmore. simpl. by rewrite <- app_assoc.
Qed.

(** An evaluation that resolves its inputs increments the counter of an
    object of the store once for each input that is this object, whether
    [execute] then returns a good list or not; the counters of the objects
    that are no input are left as they were. *)
Theorem _evaluateTask_touch_counts t self data_items (it : item) :
  ¬ stale t self →
  resolve (data_cache self) (VideoTask.required t) = Some data_items →
  (_VideoDataItem.oid it < length (touched_store self))%nat →
  _VideoDataItem.getTouched it (touched_store (_evaluateTask t self).1)
  = (_VideoDataItem.getTouched it (touched_store self)
     + times_in (_VideoDataItem.oid it) data_items)%nat.
Proof.
  intros Hs Hr Hlt. rewrite (_evaluateTask_fire _ _ _ Hs Hr), fire_unfold.
  unfold _VideoDataItem.getTouched.
  assert (∀ more,
    (foldl ref_touch (touched_store self) data_items ++ more)
      !! _VideoDataItem.oid it
    = Some (default 0%nat (touched_store self !! _VideoDataItem.oid it)
            + times_in (_VideoDataItem.oid it) data_items)%nat) as Hlook.
  { intros more. rewrite lookup_app_l.
    - rewrite foldl_ref_touch_lookup.
      destruct (lookup_lt_is_Some_2 _ _ Hlt) as [n ->]. done.
    - apply lookup_lt_is_Some. rewrite foldl_ref_touch_lookup.
      destruct (lookup_lt_is_Some_2 _ _ Hlt) as [n ->]. by eexists. }
  destruct (VideoTask.execute t (ref_getData <$> data_items)) as [|result].
  - simpl. specialize (Hlook []). rewrite app_nil_r in Hlook. by rewrite Hlook.
  - destruct (store_result_store result (touch_all data_items self).1)
      as [more Hmore].
    destruct (store_result result (touch_all data_items self).1)
      as [s' [[]|e]]; simpl in *; by rewrite Hmore, Hlook.
Qed.

(** ** A task that fires *)

Lemma store_result_triples (result : list (DataTuple payload)) s :
  Forall (λ data_item, tuple_len data_item = 3%nat) result →
  (store_result result s).2 = Return tt.
Proof.
  intros Hall. revert s. induction Hall as [|x rest Hx _ IH]; intros s; [done|].
  apply tuple_len_3 in Hx as (ty & fid & data & ->).
  simpl. unfold new_item, cache_put. unfold_M. simpl. apply IH.
Qed.

(** When the inputs of a task within the window resolve and [execute]
    returns a list of items of three elements, the evaluation returns
    [False] (the task is deleted) and every item is in the cache under its
    [(type, frame_id)], the last one of the list when several have the same
    key; the other keys of the cache hold what they held. *)
Theorem _evaluateTask_stores_result t self data_items result :
  ¬ stale t self →
  resolve (data_cache self) (VideoTask.required t) = Some data_items →
  VideoTask.execute t (ref_getData <$> data_items) = Items result →
  Forall (λ data_item, tuple_len data_item = 3%nat) result →
  ∃ s',
    _evaluateTask t self = (s', Return false) ∧
    (∀ i ty fid data,
       result !! i = Some (Tuple3 ty fid data) →
       (∀ j data', (i < j)%nat → result !! j ≠ Some (Tuple3 ty fid data')) →
       ∃ oid,
         data_cache s' !! (ty, fid) = Some (_VideoDataItem.mk oid ty fid data)) ∧
    (∀ ty fid,
       (∀ data, Tuple3 ty fid data ∉ result) →
       data_cache s' !! (ty, fid) = data_cache self !! (ty, fid)).
Proof.
  intros Hs Hr Hx Hall.
  rewrite (_evaluateTask_fire _ _ _ Hs Hr), fire_unfold, Hx.
  pose proof (store_result_triples result (touch_all data_items self).1 Hall)
    as Hret.
  pose proof (store_result_lookup result (touch_all data_items self).1) as Hl.
  pose proof (store_result_other result (touch_all data_items self).1) as Ho.
  destruct (store_result result (touch_all data_items self).1) as [s' r].
  simpl in *. subst r. exists s'. split_and!; [done| |].
  - intros i ty fid data Hi Hlast. by eapply Hl.
  - intros ty fid Hnot. by rewrite Ho.
Qed.

(** ** The fixed point of [_runTasks] *)

Lemma set_task_list_id s : set_task_list (task_list s) s = s.
Proof. by destruct s. Qed.

(** A scan that retains as many tasks as it started with has retained them
    all, and has changed nothing. *)
Lemma scan_all_kept l s s' kept :
  py_filter _evaluateTask l s = (s', Return kept) →
  length kept = length l →
  s' = s ∧ kept = l ∧
  Forall (λ t, ¬ stale t s ∧
               resolve (data_cache s) (VideoTask.required t) = None) l.
Proof.
  revert s s' kept. induction l as [|t rest IH]; intros s s' kept.
  - simpl. unfold_M. intros [= <- <-] _. by split_and!.
  - simpl. unfold_M.
    destruct (_evaluateTask t s) as [s1 [b|e]] eqn:Ht; [|done].
    destruct (py_filter _evaluateTask rest s1) as [s2 [kept'|e]] eqn:Hrest;
      [|done].
    intros [= <- <-] Hlen.
    pose proof (py_filter_length _ _ _ _ _ Hrest) as Hle.
    destruct b; simpl in Hlen; [|lia].
    apply _evaluateTask_keep_inv in Ht as (-> & Hs & Hn).
    destruct (IH _ _ _ Hrest) as (-> & -> & Hall); [lia|].
    split_and!; [done..|]. by constructor.
Qed.

Lemma resolve_None_missing cache (data_request : list (RequestKey payload)) :
  resolve cache data_request = None →
  ∃ ty fid, Key2 ty fid ∈ data_request ∧ cache !! (ty, fid) = None.
Proof.
  intros (before & ty & fid & after & -> & Hm & _)%resolve_None.
  exists ty, fid. split; [|done]. apply elem_of_app. right. by left.
Qed.

Lemma _runTasks_return_fixed self s' :
  _runTasks self = (s', Return tt) →
  Forall (λ t, ¬ stale t s' ∧
               ∃ ty fid, Key2 ty fid ∈ VideoTask.required t ∧
                         data_cache s' !! (ty, fid) = None)
    (task_list s') ∧
  py_filter _evaluateTask (task_list s') s' = (s', Return (task_list s')) ∧
  _runTasks s' = (s', Return tt).
Proof.
  revert s'. pattern self, (_runTasks self). apply _runTasks_ind; clear self.
  - intros self s1 e _ s' [=].
  - intros self s1 kept Hscan Hlen s' [= <-].
    destruct (scan_all_kept _ _ _ _ Hscan) as (-> & -> & Hall); [done|].
    rewrite set_task_list_id. split_and!; [|done|].
    + eapply Forall_impl; [exact Hall|]. intros t [Hs Hn].
      split; [done|]. by apply resolve_None_missing.
    + rewrite _runTasks_unfold, Hscan.
      rewrite bool_decide_eq_true_2 by done. by rewrite set_task_list_id.
  - intros self s1 kept _ _ IH s' Hrun. by apply IH.
Qed.

(** [_runTasks] returns at a fixed point: every task it leaves is within
    the window and waits for a length-2 key that the cache does not hold,
    one more scan retains every task and changes nothing, and so does one
    more call of [_runTasks]. *)
Theorem _runTasks_fixed_point self s' :
  _runTasks self = (s', Return tt) →
  Forall (λ t, ¬ stale t s' ∧
               ∃ ty fid, Key2 ty fid ∈ VideoTask.required t ∧
                         data_cache s' !! (ty, fid) = None)
    (task_list s') ∧
  py_filter _evaluateTask (task_list s') s' = (s', Return (task_list s')) ∧
  _runTasks s' = (s', Return tt).
Proof. apply _runTasks_return_fixed. Qed.

(** When [addFrame] has returned, every task left in the task list waits
    for a length-2 key of its request that is not in the cache. *)
Theorem addFrame_pending_tasks_wait frame ilog self self' :
  addFrame frame ilog self = (self', Return tt) →
  Forall (λ t, ∃ ty fid, Key2 ty fid ∈ VideoTask.required t ∧
                         data_cache self' !! (ty, fid) = None)
    (task_list self').
Proof.
  intros Hret.
  apply addFrame_return in Hret as (s1 & Hrun & _ & _ & _ & _ & -> & Hc).
  apply _runTasks_return_fixed in Hrun as (Hall & _ & _).
  eapply Forall_impl; [exact Hall|]. intros t (_ & ty & fid & Hin & Hm).
  exists ty, fid. split; [done|]. rewrite Hc.
  destruct (data_cache (_cleanUp s1).1 !! (ty, fid)) as [it|] eqn:Hl; [|done].
  destruct (_cleanUp_spec s1) as (_ & _ & Hsub).
  apply Hsub in Hl as [Hl _]. congruence.
Qed.

(** ** The order of the task list *)

Lemma py_filter_sublist {A} (f : A → M bool) l s s' kept :
  py_filter f l s = (s', Return kept) → kept `sublist_of` l.
Proof.
  revert s s' kept. induction l as [|x rest IH]; intros s s' kept.
  - simpl. unfold_M. by intros [= <- <-].
  - simpl. unfold_M. destruct (f x s) as [s1 [b|e]]; [|done].
    destruct (py_filter f rest s1) as [s2 [kept'|e]] eqn:Hrest; [|done].
    intros [= <- <-]. apply IH in Hrest.
    destruct b; [by apply sublist_skip|by apply sublist_cons].
Qed.

Lemma _runTasks_sublist self :
  task_list (_runTasks self).1 `sublist_of` task_list self.
Proof.
  pattern self, (_runTasks self). apply _runTasks_ind; clear self.
  - intros self s1 e Hscan. simpl.
    pose proof (py_filter_eval_frame _evaluateTask (task_list self) self
                  _evaluateTask_eval_frame) as Hf.
    rewrite Hscan in Hf. simpl in Hf.
    destruct Hf as (_ & _ & -> & _). done.
  - intros self s1 kept Hscan _. simpl. by eapply py_filter_sublist.
  - intros self s1 kept Hscan _ IH. simpl in IH.
    etrans; [exact IH|]. by eapply py_filter_sublist.
Qed.

(** [addFrame] adds to the task list the tasks of the factories, one for
    each factory, in the order of registration and after the tasks that
    were waiting; whatever else it does to the list is to delete tasks: the
    list it leaves is a sublist, in order, whether it returns or raises. *)
Theorem addFrame_task_list_sublist frame ilog self :
  task_list (addFrame frame ilog self).1
  `sublist_of`
  task_list self
  ++ ((λ factory : Z → task, factory (frame_id self)) <$> task_factories self).
Proof.
  rewrite addFrame_unfold.
  pose proof (_runTasks_sublist (before_runTasks frame self)) as Hsub.
  destruct (_runTasks (before_runTasks frame self)) as [s1 [[]|e]];
    simpl in Hsub; [|done].
  cbn zeta. destruct (_cleanUp_spec s1) as (_ & Hcf & _).
  destruct (showFrames_spec ilog
              (set_frame_id (frame_id (_cleanUp s1).1 + 1) (_cleanUp s1).1))
    as (released & remaining & _ & _ & _ & ->).
  simpl. destruct Hcf as (_ & _ & -> & _). done.
Qed.

Lemma _remainingTasksForFrame_count fid self :
  _remainingTasksForFrame fid self
  = length (filter (λ t, VideoTask.getFrameId t = fid) (task_list self)).
Proof.
  unfold _remainingTasksForFrame.
  assert (∀ l n,
    foldl (λ count (t : task),
             if bool_decide (VideoTask.getFrameId t = fid)
             then S count else count) n l
    = (n + length (filter (λ t, VideoTask.getFrameId t = fid) l))%nat) as Hgen.
  { induction l as [|t l IH]; intros n; simpl; [lia|].
    rewrite IH, filter_cons. case_bool_decide; case_decide; simpl; try done; lia. }
  by rewrite Hgen.
Qed.

(** ** More on the release of frames *)

Lemma showFrames_blocked ilog self :
  match frame_list self with
  | [] => True
  | frame_data :: _ =>
      _remainingTasksForFrame (_VideoDataItem.getFrameId frame_data) self
      ≠ 0%nat
  end →
  showFrames ilog self = (self, Return tt).
Proof.
  intros Hhd. unfold showFrames. unfold_M.
  destruct (frame_list self) as [|frame_data rest] eqn:Hfl; [done|].
  cbn [showFrames_loop]. unfold_M.
  by rewrite bool_decide_eq_false_2.
Qed.

(** [showFrames] releases all it can: called again at once, with any log,
    it releases nothing and changes nothing. *)
Theorem showFrames_idempotent ilog ilog' self :
  showFrames ilog' (showFrames ilog self).1
  = ((showFrames ilog self).1, Return tt).
Proof.
  destruct (showFrames_spec ilog self)
    as (released & remaining & _ & _ & Hhd & ->).
  cbn [fst]. apply showFrames_blocked. simpl.
  destruct remaining as [|frame_data rest]; done.
Qed.

(** A manager without tasks and without factories passes a frame straight
    through: [addFrame] returns, the sinks are called for the frames that
    were waiting and then for the new one, and the frame list is empty. *)
Theorem addFrame_without_tasks frame ilog self :
  task_list self = [] →
  task_factories self = [] →
  ∃ self',
    addFrame frame ilog self = (self', Return tt) ∧
    frame_list self' = [] ∧
    task_list self' = [] ∧
    frame_id self' = frame_id self + 1 ∧
    sink_calls self'
    = sink_calls self
      ++ concat (sinks_for (show self) ilog
                   <$> frame_list self
                       ++ [_VideoDataItem.mk (length (touched_store self))
                             "FRAME" (frame_id self) frame]).
Proof.
  intros Ht Hf. rewrite addFrame_unfold, _runTasks_unfold.
  assert (task_list (before_runTasks frame self) = []) as Ht0.
  { simpl. by rewrite Ht, Hf. }
  rewrite Ht0. cbn [py_filter]. unfold mret, M_ret, ret. cbn [length].
  rewrite bool_decide_eq_true_2 by done. cbn zeta.
  set (s1 := set_task_list [] (before_runTasks frame self)).
  destruct (_cleanUp_spec s1) as (_ & Hcf & _).
  set (s3 := set_frame_id (frame_id (_cleanUp s1).1 + 1) (_cleanUp s1).1).
  destruct (showFrames_spec ilog s3)
    as (released & remaining & Hsplit & _ & Hhd & ->).
  assert (task_list s3 = []) as Ht3 by (simpl; frame_tac).
  assert (remaining = []) as ->.
  { destruct remaining as [|frame_data rest]; [done|].
    exfalso. apply Hhd. unfold _remainingTasksForFrame. by rewrite Ht3. }
  rewrite app_nil_r in Hsplit. eexists. split; [reflexivity|]. simpl.
  split_and!; [done|frame_tac|frame_tac|].
  rewrite <- Hsplit. simpl.
  assert (sink_calls (_cleanUp s1).1 = sink_calls self) as -> by frame_tac.
  assert (show (_cleanUp s1).1 = show self) as -> by frame_tac.
  assert (frame_list (_cleanUp s1).1
          = frame_list self
            ++ [_VideoDataItem.mk (length (touched_store self)) "FRAME"
                  (frame_id self) frame]) as -> by frame_tac.
  done.
Qed.

(** ** What [addFrame] leaves alone *)

(** [addFrame] never assigns [debug_level], [buffer_size], [show] or the
    list of factories.  It increments [frame_id] when [_runTasks] and
    [_cleanUp] are done: the counter is one more when [addFrame] returns, and
    it is the one of the frame that failed when [_evaluateTask] has raised
    one of its two exceptions (a list that is none, an item that has not
    three elements).  The exceptions of the callables of the user are not in
    the embedding: those of a sink would come after the increment. *)
Theorem addFrame_configuration frame ilog self :
  debug_level (addFrame frame ilog self).1 = debug_level self ∧
  buffer_size (addFrame frame ilog self).1 = buffer_size self ∧
  show (addFrame frame ilog self).1 = show self ∧
  task_factories (addFrame frame ilog self).1 = task_factories self ∧
  frame_id (addFrame frame ilog self).1
  = match (addFrame frame ilog self).2 with
    | Return _ => frame_id self + 1
    | Raise NotAValidList | Raise NotThreeElements => frame_id self
    end.
Proof.
  rewrite addFrame_unfold.
  pose proof (_runTasks_spec (before_runTasks frame self)) as [Hrf _].
  destruct (_runTasks (before_runTasks frame self)) as [s1 [[]|e]].
  - cbn zeta. destruct (_cleanUp_spec s1) as (_ & Hcf & _).
    destruct (showFrames_spec ilog
                (set_frame_id (frame_id (_cleanUp s1).1 + 1) (_cleanUp s1).1))
      as (released & remaining & _ & _ & _ & ->).
    simpl in *. split_and!; frame_tac.
  - simpl in *. destruct e; split_and!; frame_tac.
Qed.

(** Below [debug_level] 2 nothing is printed: [addFrame] leaves [stdout] as
    it was, whether it returns or raises. *)
Theorem addFrame_quiet frame ilog self :
  debug_level self < 2 →
  stdout (addFrame frame ilog self).1 = stdout self.
Proof.
  intros Hq.
  set (R := λ s s' : vtm,
         debug_level s' = debug_level s ∧
         (debug_level s < 2 → stdout s' = stdout s)).
  assert (∀ s, R s (_runTasks s).1) as Hrun.
  { apply _runTasks_steps; unfold R.
    - done.
    - intros s1 s2 s3 [Hd1 Ho1] [Hd2 Ho2]. split; [congruence|].
      intros Hlt. rewrite Ho2, Ho1 by lia. done.
    - intros w s. unfold warn. unfold_M. simpl.
      case_bool_decide; simpl; [|done]. split; [done|lia].
    - done.
    - done.
    - done. }
  rewrite addFrame_unfold. specialize (Hrun (before_runTasks frame self)).
  destruct (_runTasks (before_runTasks frame self)) as [s1 [[]|e]];
    destruct Hrun as [Hd Ho]; simpl in Hd, Ho; [|by apply Ho].
  cbn zeta. destruct (_cleanUp_stdout s1) as [_ Hco].
  destruct (showFrames_spec ilog
              (set_frame_id (frame_id (_cleanUp s1).1 + 1) (_cleanUp s1).1))
    as (released & remaining & _ & _ & _ & ->).
  simpl. rewrite Hco, bool_decide_eq_false_2 by lia.
  rewrite app_nil_r. by apply Ho.
Qed.

(** ** The frame in the cache *)

Lemma _runTasks_keeps_key (k : string * Z) s :
  (∃ it, data_cache s !! k = Some it ∧ _VideoDataItem.getKey it = k) →
  ∃ it, data_cache (_runTasks s).1 !! k = Some it ∧
        _VideoDataItem.getKey it = k.
Proof.
  revert s.
  apply (_runTasks_steps
           (λ s s' : vtm,
              (∃ it, data_cache s !! k = Some it ∧
                     _VideoDataItem.getKey it = k) →
              ∃ it, data_cache s' !! k = Some it ∧
                    _VideoDataItem.getKey it = k)).
  - done.
  - intros s1 s2 s3 H12 H23 H. auto.
  - intros w s. unfold warn. unfold_M. simpl. by case_bool_decide.
  - done.
  - intros ty fid data s (it & Hl & Hk). simpl.
    destruct (decide ((ty, fid) = k)) as [<-|Hne].
    + rewrite lookup_insert_eq. by eexists.
    + rewrite lookup_insert_ne by done. by eexists.
  - done.
Qed.

(** With [buffer_size >= 0], when [addFrame] has returned the cache holds
    an item at [("FRAME", f)], [f] being the id of the frame of the call: no
    task removes a key of the cache, and [_cleanUp] keeps the frame [f].
    (The item is the frame itself unless a task has returned an item for
    that key.) *)
Theorem addFrame_frame_cached frame ilog self self' :
  0 ≤ buffer_size self →
  addFrame frame ilog self = (self', Return tt) →
  ∃ it,
    data_cache self' !! ("FRAME", frame_id self) = Some it ∧
    _VideoDataItem.getKey it = ("FRAME", frame_id self).
Proof.
  intros HW Hret.
  apply addFrame_return in Hret as (s1 & Hrun & Hf1 & Hb1 & _ & _ & _ & ->).
  destruct (_runTasks_keeps_key ("FRAME", frame_id self)
              (before_runTasks frame self)) as (it & Hl & Hk).
  { simpl. rewrite lookup_insert_eq. by eexists. }
  rewrite Hrun in Hl. simpl in Hl. exists it. split; [|done].
  apply _cleanUp_keeps; [done|].
  unfold old. injection Hk as _ Hfid.
  unfold _VideoDataItem.getFrameId. lia.
Qed.

(** ** Tasks that are all stale *)

Lemma scan_all_stale l s :
  Forall (λ t, stale t s) l →
  py_filter _evaluateTask l s
  = (set_stdout
       (stdout s
        ++ (if bool_decide (debug_level s >= 2)
            then (λ t, TaskNotExecuted (VideoTask.getFrameId t)) <$> l
            else []))
       s,
     Return []).
Proof.
  revert s. induction l as [|t rest IH]; intros s Hall.
  - simpl. unfold_M. destruct s. unfold set_stdout. simpl.
    case_bool_decide; by rewrite app_nil_r.
  - apply Forall_cons_1 in Hall as [Ht Hrest].
    cbn [py_filter]. unfold mbind, M_bind, bind.
    rewrite _evaluateTask_stale by done.
    unfold warn. unfold_M. cbn [fst].
    destruct (bool_decide (debug_level s >= 2)) eqn:Hd.
    + rewrite IH by done. unfold set_stdout. simpl. rewrite Hd.
      by rewrite <- app_assoc.
    + rewrite IH by done. by rewrite Hd.
Qed.

(** If all the tasks of the task list are out of the window, [_runTasks]
    deletes them all without calling [execute]: it returns, the task list is
    empty, the cache and the counters are what they were, and at
    [debug_level >= 2] one warning is printed for each task, in the order of
    the list.  (With [buffer_size < 0] this is the lot of every task whose
    [frame_id] is not in the future.) *)
Theorem _runTasks_all_stale self :
  Forall (λ t, stale t self) (task_list self) →
  _runTasks self
  = (set_task_list []
       (set_stdout
          (stdout self
           ++ (if bool_decide (debug_level self >= 2)
               then (λ t, TaskNotExecuted (VideoTask.getFrameId t))
                      <$> task_list self
               else []))
          self),
     Return tt).
Proof.
  intros Hall. rewrite _runTasks_unfold, scan_all_stale by done.
  destruct (task_list self) as [|t rest] eqn:Hl.
  - by rewrite bool_decide_eq_true_2.
  - rewrite bool_decide_eq_false_2 by done.
    rewrite _runTasks_unfold. cbn [task_list set_task_list py_filter].
    unfold mret, M_ret, ret. cbn [length].
    by rewrite bool_decide_eq_true_2.
Qed.

(** ** Keys and objects *)

Lemma foldl_ref_touch_length (data_items : list (DataItemRef payload)) store :
  length (foldl ref_touch store data_items) = length store.
Proof.
  revert store. induction data_items as [|each rest IH]; intros store; [done|].
  cbn [foldl]. rewrite IH. destruct each; simpl; [|done].
  apply length_alter.
Qed.

Lemma _runTasks_cache_wf s :
  (cache_wf s → cache_wf (_runTasks s).1) ∧
  (length (touched_store s) ≤ length (touched_store (_runTasks s).1))%nat.
Proof.
  revert s.
  apply (_runTasks_steps
           (λ s s' : vtm,
              (cache_wf s → cache_wf s') ∧
              (length (touched_store s) ≤ length (touched_store s'))%nat)).
  - done.
  - intros s1 s2 s3 [H1 L1] [H2 L2]. split; [auto|lia].
  - intros w s. unfold warn. unfold_M. simpl. by case_bool_decide.
  - intros data_items s. rewrite touch_all_spec. simpl.
    rewrite foldl_ref_touch_length. split; [|done].
    unfold cache_wf. simpl. by rewrite foldl_ref_touch_length.
  - intros ty fid data s. simpl. rewrite length_app. simpl. split; [|lia].
    unfold cache_wf. simpl. intros Hwf key data_item.
    rewrite length_app. simpl.
    destruct (decide ((ty, fid) = key)) as [<-|Hne].
    + rewrite lookup_insert_eq. intros [= <-]. split; [done|]. simpl. lia.
    + rewrite lookup_insert_ne by done. intros Hl.
      apply Hwf in Hl as [? ?]. split; [done|lia].
  - done.
Qed.

Lemma frame_list_wf_mono s s' :
  frame_list s' = frame_list s →
  (length (touched_store s) ≤ length (touched_store s'))%nat →
  frame_list_wf s → frame_list_wf s'.
Proof.
  unfold frame_list_wf. intros -> Hle Hwf.
  eapply Forall_impl; [exact Hwf|]. intros it [? ?]. split; [done|lia].
Qed.

Lemma addFrame_wf frame ilog self :
  cache_wf self → frame_list_wf self →
  cache_wf (addFrame frame ilog self).1 ∧
  frame_list_wf (addFrame frame ilog self).1.
Proof.
  intros Hc Hf.
  assert (cache_wf (before_runTasks frame self)) as Hc0.
  { unfold cache_wf. simpl. intros key data_item. rewrite length_app. simpl.
    destruct (decide (("FRAME", frame_id self) = key)) as [<-|Hne].
    - rewrite lookup_insert_eq. intros [= <-]. split; [done|]. simpl. lia.
    - rewrite lookup_insert_ne by done. intros Hl.
      apply Hc in Hl as [? ?]. split; [done|lia]. }
  assert (frame_list_wf (before_runTasks frame self)) as Hf0.
  { unfold frame_list_wf in *. simpl. rewrite length_app. simpl.
    apply Forall_app. split.
    - eapply Forall_impl; [exact Hf|]. intros it [? ?]. split; [done|lia].
    - constructor; [|done]. split; [done|]. simpl. lia. }
  rewrite addFrame_unfold.
  destruct (_runTasks_cache_wf (before_runTasks frame self)) as [Hc1 Hlen].
  pose proof (_runTasks_spec (before_runTasks frame self)) as [Hrf _].
  destruct (_runTasks (before_runTasks frame self)) as [s1 [[]|e]];
    simpl in Hc1, Hlen, Hrf.
  - assert (frame_list_wf s1) as Hf1.
    { apply (frame_list_wf_mono (before_runTasks frame self));
        [frame_tac|exact Hlen|exact Hf0]. }
    cbn zeta. destruct (_cleanUp_spec s1) as (_ & Hcf & Hsub).
    destruct (_cleanUp_stdout s1) as [Hst _].
    destruct (showFrames_spec ilog
                (set_frame_id (frame_id (_cleanUp s1).1 + 1) (_cleanUp s1).1))
      as (released & remaining & Hsplit & _ & _ & ->).
    simpl in *. split.
    + unfold cache_wf. simpl. rewrite Hst. intros key data_item Hl.
      apply Hsub in Hl as [Hl _]. by apply Hc1.
    + unfold frame_list_wf in *. simpl. rewrite Hst.
      assert (frame_list (_cleanUp s1).1 = frame_list s1) as Hfl by frame_tac.
      rewrite Hsplit in Hfl. rewrite <- Hfl in Hf1.
      by apply Forall_app in Hf1 as [_ ?].
  - simpl. split; [by apply Hc1|].
    apply (frame_list_wf_mono (before_runTasks frame self));
      [frame_tac|exact Hlen|exact Hf0].
Qed.

Lemma run_wf debug_level buffer_size show0 (calls : list (call payload)) :
  cache_wf (run calls (init debug_level buffer_size show0)) ∧
  frame_list_wf (run calls (init debug_level buffer_size show0)).
Proof.
  induction calls as [|c calls IH] using rev_ind.
  - split; [|by constructor]. intros key data_item Hl.
    unfold run, init in Hl. simpl in Hl. by rewrite lookup_empty in Hl.
  - rewrite run_snoc. destruct IH as [Hc Hf].
    destruct c as [task_factory|frame ilog]; simpl; [done|].
    by apply addFrame_wf.
Qed.

(** Whatever calls are made on a new manager, every item of the cache is
    stored under its own [(type, frame_id)], every item of the frame list is
    a ["FRAME"] item, and both are objects that the manager has created. *)
Theorem run_well_formed debug_level buffer_size show0
    (calls : list (call payload)) :
  cache_wf (run calls (init debug_level buffer_size show0)) ∧
  frame_list_wf (run calls (init debug_level buffer_size show0)).
Proof. apply run_wf. Qed.

(** The window, on the keys: on a manager that has only gone through calls
    of its interface, when [addFrame] has returned every key
    [(type, frame_id)] of the cache has
    [frame_id >= self.frame_id - buffer_size - 1]. *)
Theorem run_cache_keys_window debug_level buffer_size0 show0
    (calls : list (call payload)) frame ilog self' ty fid :
  addFrame frame ilog (run calls (init debug_level buffer_size0 show0))
  = (self', Return tt) →
  is_Some (data_cache self' !! (ty, fid)) →
  frame_id self' - buffer_size self' - 1 ≤ fid.
Proof.
  intros Hret [it Hl].
  destruct (run_wf debug_level buffer_size0 show0 calls) as [Hc Hf].
  destruct (addFrame_wf frame ilog _ Hc Hf) as [Hc' _].
  rewrite Hret in Hc'. simpl in Hc'.
  destruct (Hc' _ _ Hl) as [[= _ Hfid] _].
  apply addFrame_return in Hret as (s1 & _ & Hf1 & Hb1 & Hfr & Hb & _ & Hcache).
  rewrite Hcache in Hl. destruct (_cleanUp_spec s1) as (_ & _ & Hclean).
  apply Hclean in Hl as [_ Hold]. unfold old in Hold.
  unfold _VideoDataItem.getFrameId in Hold. lia.
Qed.

(** ** The arguments of [execute] *)

Lemma resolve_length cache (data_request : list (RequestKey payload)) data_items :
  resolve cache data_request = Some data_items →
  length data_items = length data_request.
Proof.
  revert data_items. induction data_request as [|key rest IH];
    intros data_items Hr; simpl in Hr.
  - by injection Hr as <-.
  - destruct (cache !! key_slice2 key).
    + apply fmap_Some in Hr as (items & Hi & ->). simpl. by rewrite (IH items).
    + destruct key; [done|].
      apply fmap_Some in Hr as (items & Hi & ->). simpl. by rewrite (IH items).
Qed.

(** When the inputs of a task resolve, [execute] gets one argument for each
    key of [required()], in the order of the keys: the payload of the item
    that the cache holds at the first two elements of the key, or else the
    third element of the key. *)
Theorem resolve_arguments cache (data_request : list (RequestKey payload))
    data_items :
  resolve cache data_request = Some data_items →
  length (ref_getData <$> data_items) = length data_request ∧
  ∀ i key,
    data_request !! i = Some key →
    match cache !! key_slice2 key with
    | Some it =>
        (ref_getData <$> data_items) !! i = Some (_VideoDataItem.getData it)
    | None =>
        ∃ ty fid default,
          key = Key3 ty fid default ∧
          (ref_getData <$> data_items) !! i = Some default
    end.
Proof.
  intros Hr. split.
  - rewrite length_fmap. by eapply resolve_length.
  - intros i key Hi.
    destruct (resolve_lookup _ _ _ _ _ Hr Hi) as (each & Hl & Hm).
    rewrite list_lookup_fmap, Hl.
    destruct (cache !! key_slice2 key).
    + by subst.
    + destruct Hm as (ty & fid & d & -> & ->). by exists ty, fid, d.
Qed.

(** ** How long a frame waits *)

(** When [addFrame] has returned, the frame at the head of the frame list
    is not more than [buffer_size + 1] behind the counter: a task holds a
    frame back only as long as the task itself is within the window. *)
Theorem addFrame_head_window frame ilog self self' frame_data rest :
  addFrame frame ilog self = (self', Return tt) →
  frame_list self' = frame_data :: rest →
  frame_id self' - _VideoDataItem.getFrameId frame_data
  ≤ buffer_size self' + 1.
Proof.
  rewrite addFrame_unfold.
  pose proof (_runTasks_spec (before_runTasks frame self)) as [Hrf Hk].
  destruct (_runTasks (before_runTasks frame self)) as [s1 [[]|e]]; [|done].
  simpl in Hrf, Hk. specialize (Hk eq_refl). cbn zeta.
  destruct (_cleanUp_spec s1) as (_ & Hcf & _).
  destruct (showFrames_spec ilog
              (set_frame_id (frame_id (_cleanUp s1).1 + 1) (_cleanUp s1).1))
    as (released & remaining & _ & _ & Hhd & ->).
  intros [= <-]. simpl. intros ->.
  assert (¬ Forall (λ t, VideoTask.getFrameId t
                         ≠ _VideoDataItem.getFrameId frame_data)
            (task_list s1)) as Hex.
  { intros Hall. apply Hhd. apply _remainingTasksForFrame_0. simpl.
    by replace (task_list (_cleanUp s1).1) with (task_list s1) by frame_tac. }
  apply not_Forall_Exists in Hex; [|apply _].
  apply Exists_exists in Hex as (t & Hin & Heq).
  apply dec_stable in Heq.
  rewrite Forall_forall in Hk. destruct (Hk t Hin) as [Hs _].
  unfold stale in Hs.
  replace (frame_id (_cleanUp s1).1) with (frame_id s1) by frame_tac.
  replace (buffer_size (_cleanUp s1).1) with (buffer_size s1) by frame_tac.
  lia.
Qed.

(** ** The task list after an exception *)

(** When the first scan of the task list in [addFrame] raises, no task is
    deleted: [addFrame] raises with the task list that the scan started
    with (the tasks that were waiting, then those of the factories), the
    tasks that fired before the exception included; only the cache, the
    counters and the output keep what those tasks did. *)
Theorem addFrame_raise_keeps_tasks frame ilog self s1 e :
  py_filter _evaluateTask (task_list (before_runTasks frame self))
    (before_runTasks frame self) = (s1, Raise e) →
  addFrame frame ilog self = (s1, Raise e) ∧
  task_list s1
  = task_list self
    ++ ((λ factory : Z → task, factory (frame_id self)) <$> task_factories self).
Proof.
  intros Hscan. split.
  - by rewrite addFrame_unfold, _runTasks_unfold, Hscan.
  - pose proof (py_filter_eval_frame _evaluateTask
                  (task_list (before_runTasks frame self))
                  (before_runTasks frame self) _evaluateTask_eval_frame) as Hf.
    rewrite Hscan in Hf. destruct Hf as (_ & _ & Ht & _). exact Ht.
Qed.

End properties.

(** * The properties on the runs above *)

(** C2 as stated fails: with [buffer_size=1], after the second frame the
    counter is 2 and the cache still holds the frame 0, and [0 < 2 - 1]. *)
Lemma cache_window_counterexample :
  addFrame "B" None demo1 = (demo2, Return tt) ∧
  frame_id demo2 = 2 ∧ buffer_size demo2 = 1 ∧
  data_cache demo2 !! ("FRAME", 0) = Some (_VideoDataItem.mk 0 "FRAME" 0 "A") ∧
  ¬ (frame_id demo2 - buffer_size demo2
     ≤ _VideoDataItem.getFrameId (_VideoDataItem.mk 0 "FRAME" 0 "A")).
Proof. split_and!; [vm_compute; reflexivity..|]. vm_compute. by intros H. Qed.

Lemma addFrame_cache_window_witness :
  addFrame "B" None demo1 = (demo2, Return tt) ∧
  frame_id demo2 - buffer_size demo2 - 1
  ≤ _VideoDataItem.getFrameId (_VideoDataItem.mk 0 "FRAME" 0 "A").
Proof.
  split; [vm_compute; reflexivity|].
  apply (addFrame_cache_window "B" None demo1 demo2) with (key := ("FRAME", 0));
    vm_compute; reflexivity.
Defined.

(** C3 as stated fails: with [buffer_size=1], after the second frame the
    counter is 2 and the task of the frame 0 is still in the task list, and
    [2 - 0 > 1]. *)
Lemma task_window_counterexample :
  addFrame "B" None demo1 = (demo2, Return tt) ∧
  frame_id demo2 = 2 ∧ buffer_size demo2 = 1 ∧
  task_list demo2 !! 0%nat = Some (waits_for_X 0) ∧
  ¬ (frame_id demo2 - VideoTask.getFrameId (waits_for_X 0) ≤ buffer_size demo2).
Proof. split_and!; [vm_compute; reflexivity..|]. vm_compute. by intros H. Qed.

Lemma addFrame_task_window_witness :
  addFrame "B" None demo1 = (demo2, Return tt) ∧
  Forall (λ t, frame_id demo2 - VideoTask.getFrameId t ≤ buffer_size demo2 + 1)
    (task_list demo2).
Proof.
  split; [vm_compute; reflexivity|].
  apply (addFrame_task_window "B" None demo1 demo2). vm_compute; reflexivity.
Defined.

(** The third frame: the task of the frame 0 is deleted with a warning, the
    frame 0 leaves the cache, and is then displayed and logged. *)
Example demo3_run :
  addFrame "C" (Some 7%nat) demo2 = (demo3, Return tt) ∧
  stdout demo3 = [TaskNotExecuted 0; DataNeverUsed "FRAME" 0] ∧
  data_cache demo3 !! ("FRAME", 0) = None ∧
  sink_calls demo3 = [Show "A"; Log 7 "A"] ∧
  _VideoDataItem.getData <$> frame_list demo3 = ["B"; "C"].
Proof. split_and!; vm_compute; reflexivity. Qed.

Lemma addFrame_no_empty_requirement_witness :
  addFrame "A" None ne0 = ((addFrame "A" None ne0).1, Return tt) ∧
  VideoTask.required (no_input 0) = [] ∧
  task_list (before_runTasks "A" ne0) = [] ++ no_input 0 :: [] ∧
  Forall (λ t, VideoTask.required t ≠ []) (task_list (addFrame "A" None ne0).1) ∧
  ∃ sb,
    _evaluateTask (no_input 0) (before_runTasks "A" ne0) = (sb, Return false) ∧
    data_cache sb !! ("N", 0) = Some (_VideoDataItem.mk 1 "N" 0 "n").
Proof.
  assert (addFrame "A" None ne0 = ((addFrame "A" None ne0).1, Return tt))
    as Hret by (vm_compute; reflexivity).
  split; [exact Hret|]. split; [reflexivity|]. split; [reflexivity|].
  destruct (addFrame_no_empty_requirement "A" None ne0 _ Hret)
    as (Hall & _ & _ & Hfirst & _ & _).
  split; [exact Hall|].
  destruct (Hfirst [] (no_input 0) [] eq_refl eq_refl)
    as (sa & k1 & sb & s1 & k2 & H1 & He & Hsb & _).
  injection H1 as <- <-. exists sb. split; [exact He|].
  destruct (decide (stale (no_input 0) (before_runTasks "A" ne0))) as [Hs|Hs].
  - exfalso. unfold stale in Hs. simpl in Hs. lia.
  - destruct Hsb as (result & Hx & _ & ->). injection Hx as <-.
    vm_compute. reflexivity.
Defined.

Lemma _evaluateTask_keep_unchanged_witness :
  _evaluateTask (waits_for_X 0) demo1 = (demo1, Return true) ∧
  (demo1 = demo1 ∧
   ∃ before ty fid after,
     VideoTask.required (waits_for_X 0) = before ++ Key2 ty fid :: after ∧
     data_cache demo1 !! (ty, fid) = None).
Proof.
  split; [vm_compute; reflexivity|].
  apply (_evaluateTask_keep_unchanged (waits_for_X 0) demo1 demo1).
  vm_compute; reflexivity.
Defined.



Lemma addFrame_failure_not_atomic_witness :
  evaluated_in_runTasks (before_runTasks "A" bad0) (bad_item 0)
    (before_runTasks "A" bad0) ∧
  ¬ stale (bad_item 0) (before_runTasks "A" bad0) ∧
  ∃ s',
    addFrame "A" None bad0 = (s', Raise NotThreeElements) ∧
    data_cache s' !! ("P", 0) = Some (_VideoDataItem.mk 1 "P" 0 "p") ∧
    data_cache bad0 !! ("P", 0) = None ∧
    frame_id s' = frame_id bad0 ∧
    sink_calls s' = sink_calls bad0.
Proof.
  assert (evaluated_in_runTasks (before_runTasks "A" bad0) (bad_item 0)
            (before_runTasks "A" bad0)) as Hev.
  { apply (evaluated_in_scan _ [] (bad_item 0) [] _ []); reflexivity. }
  assert (¬ stale (bad_item 0) (before_runTasks "A" bad0)) as Hs.
  { unfold stale. simpl. lia. }
  split; [exact Hev|]. split; [exact Hs|].
  destruct (addFrame_failure_not_atomic "A" None bad0 (bad_item 0) _
              [Cached (_VideoDataItem.mk 0 "FRAME" 0 "A")]
              [Tuple3 "P" 0 "p"] Tuple2 [Tuple3 "R" 0 "r"] Hev Hs)
    as (s' & Hraise & -> & Hfid & Hsinks & _ & _).
  - reflexivity.
  - reflexivity.
  - repeat constructor.
  - simpl. lia.
  - eexists. split; [exact Hraise|].
    split_and!; [vm_compute; reflexivity..|exact Hfid|exact Hsinks].
Defined.

Lemma optional_key_default_witness :
  ¬ stale (with_default 0) opt0 ∧
  VideoTask.required (with_default 0)
  = [Key2 "FRAME" 0] ++ Key3 "AUX" 0 "none" :: [] ∧
  ∃ data_items,
    _evaluateTask (with_default 0) opt0 = fire (with_default 0) data_items opt0 ∧
    (ref_getData <$> data_items) !! 1%nat = Some "none" ∧
    data_cache (_evaluateTask (with_default 0) opt0).1 !! ("AUX", 0) = None.
Proof.
  assert (¬ stale (with_default 0) opt0) as Hs.
  { unfold stale. simpl. lia. }
  split; [exact Hs|]. split; [reflexivity|].
  destruct (optional_key_default (with_default 0) opt0
              [Key2 "FRAME" 0] "AUX" 0 "none" [] Hs eq_refl)
    as (data_items & Hr & He & _ & Harg & Hcache).
  - intros ty' fid' Hin. apply elem_of_cons in Hin as [Heq|Hin].
    + injection Heq as -> ->. vm_compute. by eexists.
    + apply elem_of_cons in Hin as [Heq|Hin]; [discriminate|].
      by apply elem_of_nil in Hin.
  - exists data_items. split; [exact He|]. split; [exact Harg|].
    apply Hcache; [vm_compute; reflexivity|].
    intros result Hx data Hin.
    injection Hr as <-. injection Hx as <-.
    apply elem_of_cons in Hin as [Heq|Hin]; [discriminate|].
    by apply elem_of_nil in Hin.
Defined.

(** * The further properties on the runs above *)

Lemma _evaluateTask_touch_counts_witness :
  ¬ stale (with_default 0) opt0 ∧
  resolve (data_cache opt0) (VideoTask.required (with_default 0))
  = Some [Cached (_VideoDataItem.mk 0 "FRAME" 0 "A"); Synthetic "AUX" 0 "none"] ∧
  (0 < length (touched_store opt0))%nat ∧
  _VideoDataItem.getTouched (_VideoDataItem.mk 0 "FRAME" 0 "A")
    (touched_store (_evaluateTask (with_default 0) opt0).1) = 1%nat.
Proof.
  assert (¬ stale (with_default 0) opt0) as Hs.
  { unfold stale. simpl. lia. }
  split; [exact Hs|]. split; [reflexivity|]. split; [simpl; lia|].
  rewrite (_evaluateTask_touch_counts (with_default 0) opt0
             [Cached (_VideoDataItem.mk 0 "FRAME" 0 "A");
              Synthetic "AUX" 0 "none"]
             (_VideoDataItem.mk 0 "FRAME" 0 "A") Hs);
    [reflexivity|reflexivity|simpl; lia].
Defined.

Lemma _evaluateTask_stores_result_witness :
  ¬ stale (with_default 0) opt0 ∧
  ∃ s',
    _evaluateTask (with_default 0) opt0 = (s', Return false) ∧
    ∃ oid,
      data_cache s' !! ("OUT", 0)
      = Some (_VideoDataItem.mk oid "OUT" 0 "A,none").
Proof.
  assert (¬ stale (with_default 0) opt0) as Hs.
  { unfold stale. simpl. lia. }
  split; [exact Hs|].
  destruct (_evaluateTask_stores_result (with_default 0) opt0
              [Cached (_VideoDataItem.mk 0 "FRAME" 0 "A");
               Synthetic "AUX" 0 "none"]
              [Tuple3 "OUT" 0 "A,none"] Hs)
    as (s' & He & Hl & _).
  - reflexivity.
  - reflexivity.
  - repeat constructor.
  - exists s'. split; [exact He|].
    apply (Hl 0%nat "OUT" 0 "A,none"); [reflexivity|].
    intros j data' Hlt. destruct j as [|j]; [lia|]. simpl. discriminate.
Defined.

Lemma _runTasks_fixed_point_witness :
  _runTasks (before_runTasks "B" demo1)
  = ((_runTasks (before_runTasks "B" demo1)).1, Return tt) ∧
  _runTasks (_runTasks (before_runTasks "B" demo1)).1
  = ((_runTasks (before_runTasks "B" demo1)).1, Return tt).
Proof.
  assert (_runTasks (before_runTasks "B" demo1)
          = ((_runTasks (before_runTasks "B" demo1)).1, Return tt)) as Hrun.
  { vm_compute. reflexivity. }
  split; [exact Hrun|].
  apply (_runTasks_fixed_point (before_runTasks "B" demo1) _ Hrun).
Defined.

Lemma addFrame_pending_tasks_wait_witness :
  addFrame "B" None demo1 = (demo2, Return tt) ∧
  Forall (λ t, ∃ ty fid, Key2 ty fid ∈ VideoTask.required t ∧
                         data_cache demo2 !! (ty, fid) = None)
    (task_list demo2).
Proof.
  split; [vm_compute; reflexivity|].
  apply (addFrame_pending_tasks_wait "B" None demo1 demo2).
  vm_compute; reflexivity.
Defined.

Lemma addFrame_without_tasks_witness :
  task_list (init 0 3 true : VideoTaskManager string) = [] ∧
  task_factories (init 0 3 true : VideoTaskManager string) = [] ∧
  ∃ self',
    addFrame "A" None (init 0 3 true) = (self', Return tt) ∧
    frame_list self' = [] ∧
    sink_calls self' = [Show "A"].
Proof.
  split; [reflexivity|]. split; [reflexivity|].
  destruct (addFrame_without_tasks "A" None
              (init 0 3 true : VideoTaskManager string) eq_refl eq_refl)
    as (self' & Hret & Hfl & _ & _ & Hsinks).
  exists self'. split; [exact Hret|]. split; [exact Hfl|]. exact Hsinks.
Defined.

Lemma addFrame_quiet_witness :
  debug_level bad0 < 2 ∧
  stdout (addFrame "A" None bad0).1 = stdout bad0.
Proof.
  assert (debug_level bad0 < 2) as Hq by (simpl; lia).
  split; [exact Hq|]. apply (addFrame_quiet "A" None bad0 Hq).
Defined.

Lemma addFrame_frame_cached_witness :
  0 ≤ buffer_size demo1 ∧
  addFrame "B" None demo1 = (demo2, Return tt) ∧
  ∃ it,
    data_cache demo2 !! ("FRAME", frame_id demo1) = Some it ∧
    _VideoDataItem.getKey it = ("FRAME", frame_id demo1).
Proof.
  assert (0 ≤ buffer_size demo1) as HW by (vm_compute; discriminate).
  assert (addFrame "B" None demo1 = (demo2, Return tt)) as Hret
    by (vm_compute; reflexivity).
  split; [exact HW|]. split; [exact Hret|].
  apply (addFrame_frame_cached "B" None demo1 demo2 HW Hret).
Defined.

Lemma _runTasks_all_stale_witness :
  Forall (λ t, stale t neg0) (task_list neg0) ∧
  task_list (_runTasks neg0).1 = [] ∧
  stdout (_runTasks neg0).1 = [TaskNotExecuted 0] ∧
  data_cache (_runTasks neg0).1 = data_cache neg0.
Proof.
  assert (Forall (λ t, stale t neg0) (task_list neg0)) as Hall.
  { repeat constructor. }
  split; [exact Hall|].
  rewrite (_runTasks_all_stale neg0 Hall). split_and!; reflexivity.
Defined.

Lemma run_cache_keys_window_witness :
  addFrame "B" None (run demo_calls (init 2 1 true)) = (demo2, Return tt) ∧
  is_Some (data_cache demo2 !! ("FRAME", 0)) ∧
  frame_id demo2 - buffer_size demo2 - 1 ≤ 0.
Proof.
  assert (addFrame "B" None (run demo_calls (init 2 1 true))
          = (demo2, Return tt)) as Hret by (vm_compute; reflexivity).
  assert (is_Some (data_cache demo2 !! ("FRAME", 0))) as Hin
    by (vm_compute; by eexists).
  split; [exact Hret|]. split; [exact Hin|].
  apply (run_cache_keys_window 2 1 true demo_calls "B" None demo2 "FRAME" 0
           Hret Hin).
Defined.

Lemma resolve_arguments_witness :
  resolve (data_cache opt0) (VideoTask.required (with_default 0))
  = Some [Cached (_VideoDataItem.mk 0 "FRAME" 0 "A"); Synthetic "AUX" 0 "none"] ∧
  length (ref_getData
            <$> [Cached (_VideoDataItem.mk 0 "FRAME" 0 "A");
                 Synthetic "AUX" 0 ("none" : string)])
  = length (VideoTask.required (with_default 0)).
Proof.
  split; [reflexivity|].
  apply (resolve_arguments (data_cache opt0)
           (VideoTask.required (with_default 0))
           [Cached (_VideoDataItem.mk 0 "FRAME" 0 "A");
            Synthetic "AUX" 0 "none"]).
  reflexivity.
Defined.

Lemma addFrame_head_window_witness :
  addFrame "B" None demo1 = (demo2, Return tt) ∧
  frame_list demo2
  = [_VideoDataItem.mk 0 "FRAME" 0 "A"; _VideoDataItem.mk 1 "FRAME" 1 "B"] ∧
  frame_id demo2 - 0 ≤ buffer_size demo2 + 1.
Proof.
  assert (addFrame "B" None demo1 = (demo2, Return tt)) as Hret
    by (vm_compute; reflexivity).
  assert (frame_list demo2
          = [_VideoDataItem.mk 0 "FRAME" 0 "A";
             _VideoDataItem.mk 1 "FRAME" 1 "B"]) as Hfl
    by (vm_compute; reflexivity).
  split; [exact Hret|]. split; [exact Hfl|].
  apply (addFrame_head_window "B" None demo1 demo2 _ _ Hret Hfl).
Defined.

Lemma addFrame_raise_keeps_tasks_witness :
  py_filter _evaluateTask (task_list (before_runTasks "A" bad0))
    (before_runTasks "A" bad0)
  = ((addFrame "A" None bad0).1, Raise NotThreeElements) ∧
  task_list (addFrame "A" None bad0).1 = [bad_item 0].
Proof.
  assert (py_filter _evaluateTask (task_list (before_runTasks "A" bad0))
            (before_runTasks "A" bad0)
          = ((addFrame "A" None bad0).1, Raise NotThreeElements)) as Hscan
    by (vm_compute; reflexivity).
  split; [exact Hscan|].
  apply (addFrame_raise_keeps_tasks "A" None bad0 _ _ Hscan).
Defined.
